(** * kibana/manager.py: the KibanaManager class

    A shallow embedding of [KibanaManager] (src/kibana/manager.py) and of the
    parts of Python it relies on: dictionaries, the [json] module as it is
    called by [json_dumps] ([sort_keys=True, indent=4,
    separators=(',', ': ')]) and by [json.loads], files, and the
    Elasticsearch client seen as a request/response oracle.

    Conventions of the model
    - Python objects that travel through the manager are JSON trees
      ([pyval]).  Numbers are integers; floating point values are not
      modelled.
    - Text is made of Rocq's 8-bit characters: a Python unicode string is
      modelled when its code points are below 256.
    - [print] only writes to standard output and is left out.
    - A dictionary is a [gmap]; the order in which [iteritems] visits it is a
      parameter of the functions that iterate. *)

From Stdlib Require Import ZArith NArith Decimal DecimalN DecimalFacts Ascii String.
From stdpp Require Import gmap strings list fin_maps sorting.

Set Warnings "-register-all".
#[local] Open Scope Z_scope.

(** ** Python values *)

Inductive pyval :=
| PNone
| PBool (b : bool)
| PInt (z : Z)
| PStr (s : string)
| PList (l : list pyval)
| PDict (m : gmap string pyval).

Abbreviation dict := (gmap string pyval).

(** Exceptions that the manager raises or lets through. *)
Inductive exn :=
| Exception (msg : string)          (* raise Exception("...") *)
| KeyError (key : string)           (* d[key] on a dict without key *)
| TypeError                         (* subscript or iteration of a wrong type *)
| AttributeError                    (* a method called on None *)
| ValueError                        (* json.loads on text that is not JSON *)
| IOError (path : string)           (* open() failed *)
| TransportError (status : Z).      (* raised by the Elasticsearch client *)

Inductive result (A : Type) :=
| Ok (a : A)
| Raise (e : exn).
Arguments Ok {A} a.
Arguments Raise {A} e.

#[global] Instance exn_eq_dec : EqDecision exn.
Proof. solve_decision. Defined.

(** Size of a value, used for induction through lists and dictionaries. *)
Fixpoint pyval_size (v : pyval) : nat :=
  match v with
  | PList l => S (foldr (λ x acc, pyval_size x + acc)%nat 0%nat l)
  | PDict m => S (map_fold (λ _ x acc, pyval_size x + acc)%nat 0%nat m)
  | _ => 1
  end.

(** ** Text

    File contents and JSON documents are lists of characters; [chars] and
    [str] convert from and to Rocq strings. *)

Abbreviation text := (list ascii).

Definition chars (s : string) : text := list_ascii_of_string s.
Definition str (t : text) : string := string_of_list_ascii t.

Definition quote : ascii := "034"%char.
Definition backslash : ascii := "092"%char.
Definition newline : ascii := "010"%char.

Definition code (c : ascii) : N := N_of_ascii c.

(** Python's [str()] of an integer: decimal digits, with a minus sign. *)
Fixpoint uint_chars (u : uint) : text :=
  match u with
  | Nil => []
  | D0 u => "0"%char :: uint_chars u
  | D1 u => "1"%char :: uint_chars u
  | D2 u => "2"%char :: uint_chars u
  | D3 u => "3"%char :: uint_chars u
  | D4 u => "4"%char :: uint_chars u
  | D5 u => "5"%char :: uint_chars u
  | D6 u => "6"%char :: uint_chars u
  | D7 u => "7"%char :: uint_chars u
  | D8 u => "8"%char :: uint_chars u
  | D9 u => "9"%char :: uint_chars u
  end.

Definition str_int (z : Z) : text :=
  if z <? 0 then "-"%char :: uint_chars (N.to_uint (Z.to_N (- z)))
  else uint_chars (N.to_uint (Z.to_N z)).

Definition digit_of_char (c : ascii) : option (uint → uint) :=
  if (c =? "0")%char then Some D0
  else if (c =? "1")%char then Some D1
  else if (c =? "2")%char then Some D2
  else if (c =? "3")%char then Some D3
  else if (c =? "4")%char then Some D4
  else if (c =? "5")%char then Some D5
  else if (c =? "6")%char then Some D6
  else if (c =? "7")%char then Some D7
  else if (c =? "8")%char then Some D8
  else if (c =? "9")%char then Some D9
  else None.

(** ** json.dumps(obj, sort_keys=True, indent=4, separators=(',', ': '))

    The encoder escapes every character outside the printable ASCII range
    ([ensure_ascii] is on by default). *)

Definition hex_digit (n : N) : ascii :=
  nth (N.to_nat n) (chars "0123456789abcdef") "0"%char.

Definition escape_char (c : ascii) : text :=
  if (c =? quote)%char then [backslash; quote]
  else if (c =? backslash)%char then [backslash; backslash]
  else if (c =? "010")%char then [backslash; "n"%char]
  else if (c =? "013")%char then [backslash; "r"%char]
  else if (c =? "009")%char then [backslash; "t"%char]
  else if (c =? "008")%char then [backslash; "b"%char]
  else if (c =? "012")%char then [backslash; "f"%char]
  else if ((32 <=? code c) && (code c <=? 126))%N then [c]
  else [backslash; "u"%char; "0"%char; "0"%char;
        hex_digit (code c / 16); hex_digit (code c mod 16)].

Definition encode_string (s : string) : text :=
  quote :: mjoin (escape_char <$> chars s) ++ [quote].

Definition newline_indent (level : nat) : text :=
  newline :: replicate (4 * level) " "%char.

(** [sep.join(parts)] *)
Fixpoint join_with (sep : text) (parts : list text) : text :=
  match parts with
  | [] => []
  | [p] => p
  | p :: ps => p ++ sep ++ join_with sep ps
  end.

(** Order of [sorted(dct.items(), key=lambda kv: kv[0])]. *)
Definition key_le (a b : string * text) : Prop := String.leb a.1 b.1 = true.

#[global] Instance key_le_dec : RelDecision key_le.
Proof. intros a b. unfold key_le. apply _. Defined.

Fixpoint iterencode (level : nat) (o : pyval) : text :=
  match o with
  | PNone => chars "null"
  | PBool true => chars "true"
  | PBool false => chars "false"
  | PInt z => str_int z
  | PStr s => encode_string s
  | PList l =>
      match l with
      | [] => chars "[]"
      | _ =>
          "["%char :: newline_indent (S level)
          ++ join_with (","%char :: newline_indent (S level))
               (map (iterencode (S level)) l)
          ++ newline_indent level ++ ["]"%char]
      end
  | PDict m =>
      let items :=
        merge_sort key_le
          (map_fold (λ k v acc, (k, iterencode (S level) v) :: acc) [] m) in
      match items with
      | [] => chars "{}"
      | _ =>
          "{"%char :: newline_indent (S level)
          ++ join_with (","%char :: newline_indent (S level))
               (map (λ kt, encode_string kt.1 ++ chars ": " ++ kt.2) items)
          ++ newline_indent level ++ ["}"%char]
      end
  end.

(** [KibanaManager.json_dumps] *)
Definition json_dumps (obj : pyval) : string := str (iterencode 0 obj).

(** ** json.loads

    The decoder of Python's [json] module on the modelled fragment: a
    number followed by a fraction or an exponent, and an escape for a code
    point above 255, are answered with [ValueError]. *)

Definition is_ws (c : ascii) : bool :=
  ((c =? " ") || (c =? "009") || (c =? "010") || (c =? "013"))%char.

Fixpoint skip_ws (s : text) : text :=
  match s with
  | c :: r => if is_ws c then skip_ws r else s
  | [] => []
  end.

Definition hex_val (c : ascii) : option N :=
  let n := code c in
  if ((48 <=? n) && (n <=? 57))%N then Some (n - 48)%N
  else if ((97 <=? n) && (n <=? 102))%N then Some (n - 87)%N
  else if ((65 <=? n) && (n <=? 70))%N then Some (n - 55)%N
  else None.

Definition unescape (e : ascii) : option ascii :=
  if (e =? quote)%char then Some quote
  else if (e =? backslash)%char then Some backslash
  else if (e =? "/")%char then Some "/"%char
  else if (e =? "b")%char then Some "008"%char
  else if (e =? "f")%char then Some "012"%char
  else if (e =? "n")%char then Some "010"%char
  else if (e =? "r")%char then Some "013"%char
  else if (e =? "t")%char then Some "009"%char
  else None.

Definition hex4 (h1 h2 h3 h4 : ascii) : option ascii :=
  match hex_val h1, hex_val h2, hex_val h3, hex_val h4 with
  | Some a, Some b, Some c, Some d =>
      let n := (((a * 16 + b) * 16 + c) * 16 + d)%N in
      if (n <? 256)%N then Some (ascii_of_N n) else None
  | _, _, _, _ => None
  end.

(** [scanstring]: the text after an opening quote, up to the closing one. *)
Fixpoint scanstring (s : text) : option (text * text) :=
  match s with
  | [] => None
  | c :: r =>
      if (c =? quote)%char then Some ([], r)
      else if (c =? backslash)%char then
        match r with
        | [] => None
        | e :: r1 =>
            if (e =? "u")%char then
              match r1 with
              | h1 :: h2 :: h3 :: h4 :: r2 =>
                  match hex4 h1 h2 h3 h4, scanstring r2 with
                  | Some x, Some (t, rest) => Some (x :: t, rest)
                  | _, _ => None
                  end
              | _ => None
              end
            else
              match unescape e, scanstring r1 with
              | Some x, Some (t, rest) => Some (x :: t, rest)
              | _, _ => None
              end
        end
      else if (code c <? 32)%N then None
      else
        match scanstring r with
        | Some (t, rest) => Some (c :: t, rest)
        | None => None
        end
  end.

Fixpoint scan_digits (s : text) : uint * text :=
  match s with
  | c :: r =>
      match digit_of_char c with
      | Some d => let '(u, rest) := scan_digits r in (d u, rest)
      | None => (Nil, s)
      end
  | [] => (Nil, [])
  end.

Definition float_follows (s : text) : bool :=
  match s with
  | c :: _ => ((c =? ".") || (c =? "e") || (c =? "E"))%char
  | [] => false
  end.

(** The integer part of NUMBER_RE: either a single 0 or a run of digits
    that does not start with 0. *)
Definition scan_int_part (s : text) : uint * text :=
  match s with
  | c :: r => if (c =? "0")%char then (D0 Nil, r) else scan_digits s
  | [] => (Nil, s)
  end.

(** After the integer part: a fraction or an exponent makes a float. *)
Definition finish_number (neg : bool) (u : uint) (rest : text)
    : option (Z * text) :=
  match u with
  | Nil => None
  | _ =>
      if float_follows rest then None
      else
        let n := Z.of_N (N.of_uint u) in
        Some (if neg then - n else n, rest)
  end.

(** NUMBER_RE without fraction and exponent. *)
Definition scan_number (s : text) : option (Z * text) :=
  let '(neg, s1) :=
    match s with
    | c :: r => if (c =? "-")%char then (true, r) else (false, s)
    | [] => (false, s)
    end in
  let '(u, rest) := scan_int_part s1 in
  finish_number neg u rest.

Fixpoint strip_prefix (p s : text) : option text :=
  match p, s with
  | [], _ => Some s
  | a :: p', b :: s' => if (a =? b)%char then strip_prefix p' s' else None
  | _ :: _, [] => None
  end.

(** [dict(pairs)]: a later pair overrides an earlier one with its key. *)
Definition dict_of_pairs (pairs : list (string * pyval)) : dict :=
  foldl (λ m kv, <[kv.1 := kv.2]> m) ∅ pairs.

(** The decoder is three mutually recursive scanners.  Each is written
    here as a function of the scanners it calls, so that the recursion, on
    a bound [fuel] for its depth, is tied in one place below. *)

(** [scan_once]: one value at the head of the text. *)
Definition scan_once_body
    (elements : text → option (list pyval * text))
    (members : text → option (list (string * pyval) * text))
    (s : text) : option (pyval * text) :=
  match s with
  | [] => None
  | c :: r =>
      if (c =? quote)%char then
        match scanstring r with
        | Some (t, rest) => Some (PStr (str t), rest)
        | None => None
        end
      else if (c =? "{")%char then
        match skip_ws r with
        | [] => None
        | c1 :: r1 =>
            if (c1 =? "}")%char then Some (PDict ∅, r1)
            else
              match members (c1 :: r1) with
              | Some (kvs, rest) => Some (PDict (dict_of_pairs kvs), rest)
              | None => None
              end
        end
      else if (c =? "[")%char then
        match skip_ws r with
        | [] => None
        | c1 :: r1 =>
            if (c1 =? "]")%char then Some (PList [], r1)
            else
              match elements (c1 :: r1) with
              | Some (vs, rest) => Some (PList vs, rest)
              | None => None
              end
        end
      else if (c =? "n")%char then
        match strip_prefix (chars "ull") r with
        | Some rest => Some (PNone, rest)
        | None => None
        end
      else if (c =? "t")%char then
        match strip_prefix (chars "rue") r with
        | Some rest => Some (PBool true, rest)
        | None => None
        end
      else if (c =? "f")%char then
        match strip_prefix (chars "alse") r with
        | Some rest => Some (PBool false, rest)
        | None => None
        end
      else
        match scan_number s with
        | Some (z, rest) => Some (PInt z, rest)
        | None => None
        end
  end.

(** The elements of a list, from the first one to the closing bracket. *)
Definition scan_elements_body
    (value : text → option (pyval * text))
    (elements : text → option (list pyval * text))
    (s : text) : option (list pyval * text) :=
  match value s with
  | None => None
  | Some (v, r) =>
      match skip_ws r with
      | [] => None
      | c :: r1 =>
          if (c =? ",")%char then
            match elements (skip_ws r1) with
            | Some (vs, rest) => Some (v :: vs, rest)
            | None => None
            end
          else if (c =? "]")%char then Some ([v], r1)
          else None
      end
  end.

(** The members of a dictionary, from the first key to the closing brace. *)
Definition scan_members_body
    (value : text → option (pyval * text))
    (members : text → option (list (string * pyval) * text))
    (s : text) : option (list (string * pyval) * text) :=
  match s with
  | [] => None
  | q :: r =>
      if negb (q =? quote)%char then None
      else
        match scanstring r with
        | None => None
        | Some (k, r1) =>
            match skip_ws r1 with
            | [] => None
            | c :: r2 =>
                if negb (c =? ":")%char then None
                else
                  match value (skip_ws r2) with
                  | None => None
                  | Some (v, r3) =>
                      match skip_ws r3 with
                      | [] => None
                      | d :: r4 =>
                          if (d =? ",")%char then
                            match members (skip_ws r4) with
                            | Some (kvs, rest) =>
                                Some ((str k, v) :: kvs, rest)
                            | None => None
                            end
                          else if (d =? "}")%char then
                            Some ([(str k, v)], r4)
                          else None
                      end
                  end
            end
        end
  end.

Fixpoint scan_once (fuel : nat) (s : text) : option (pyval * text) :=
  match fuel with
  | O => None
  | S fuel => scan_once_body (scan_elements fuel) (scan_members fuel) s
  end
with scan_elements (fuel : nat) (s : text) : option (list pyval * text) :=
  match fuel with
  | O => None
  | S fuel => scan_elements_body (scan_once fuel) (scan_elements fuel) s
  end
with scan_members (fuel : nat) (s : text)
    : option (list (string * pyval) * text) :=
  match fuel with
  | O => None
  | S fuel => scan_members_body (scan_once fuel) (scan_members fuel) s
  end.

(** [json.loads(s)]: one value between optional white space, nothing after.
    The bound given to the scanners is never reached ([json_loads_fuel]). *)
Definition json_loads (s : string) : result pyval :=
  let t := chars s in
  match scan_once (2 * length t + 2) (skip_ws t) with
  | Some (v, rest) =>
      match skip_ws rest with
      | [] => Ok v
      | _ :: _ => Raise ValueError
      end
  | None => Raise ValueError
  end.

(** ** Subscripts, iteration, formatting *)

#[global] Instance result_ret : MRet result := λ A a, Ok a.
#[global] Instance result_bind : MBind result :=
  λ A B f r, match r with Ok a => f a | Raise e => Raise e end.

(** [obj[key]] for a string key. *)
Definition subscript (obj : pyval) (key : string) : result pyval :=
  match obj with
  | PDict m =>
      match m !! key with
      | Some v => Ok v
      | None => Raise (KeyError key)
      end
  | _ => Raise TypeError
  end.

(** [v is None or v == ""] *)
Definition missing (v : pyval) : bool :=
  match v with
  | PNone => true
  | PStr s => bool_decide (s = "")
  | _ => false
  end.

(** [name == v] for a dictionary key [name]. *)
Definition key_eq (name : string) (v : pyval) : bool :=
  match v with
  | PStr s => bool_decide (name = s)
  | _ => false
  end.

(** A value used as a dictionary key.  Lists and dictionaries are
    unhashable; the model keeps string keys only, as the ids that
    Elasticsearch returns are strings. *)
Definition as_key (v : pyval) : result string :=
  match v with
  | PStr s => Ok s
  | _ => Raise TypeError
  end.

(** [os.path.join(path, filename)] of posixpath. *)
Definition path_join (path filename : string) : string :=
  let absolute :=
    match chars filename with
    | c :: _ => (c =? "/")%char
    | [] => false
    end in
  if absolute then filename
  else
    match last (chars path) with
    | None => path +:+ filename
    | Some e =>
        if (e =? "/")%char then path +:+ filename
        else path +:+ "/" +:+ filename
    end.

(** ** The manager, the backend and the files *)

Inductive es_call :=
| IndicesCreate (index : pyval)
| Index (index id doc_type body : pyval)
| Delete (index id doc_type : pyval)
| Search (index : string) (body : string).

(** [Elasticsearch([{'host': ip, 'port': port}])] *)
Record Elasticsearch := { hosts : list (string * Z) }.

Record KibanaManager := {
  _host_ip : string;
  _host_port : Z;
  index : string;
  es : option Elasticsearch;
  max_hits : Z;
}.

(** [KibanaManager.__init__] *)
Definition init (index : string) (host : string * Z) : KibanaManager :=
  {| _host_ip := host.1; _host_port := host.2; index := index;
     es := None; max_hits := 9999 |}.

Definition host (self : KibanaManager) : string * Z :=
  (_host_ip self, _host_port self).

(** What a call can see and change: the manager object, the backend
    behind the client with the requests it has received (latest first), and
    the files.  [writable] tells which paths [open(path, 'w')] accepts. *)
Record world (B : Type) := {
  self : KibanaManager;
  backend : B;
  requests : list es_call;
  files : gmap string string;
  writable : string → bool;
}.
Arguments self {B} w.
Arguments backend {B} w.
Arguments requests {B} w.
Arguments files {B} w.
Arguments writable {B} w.

Definition M (B A : Type) : Type := world B → result A * world B.

#[global] Instance M_ret {B} : MRet (M B) := λ A a w, (Ok a, w).
#[global] Instance M_bind {B} : MBind (M B) :=
  λ A C f c w,
    match c w with
    | (Ok a, w1) => f a w1
    | (Raise e, w1) => (Raise e, w1)
    end.

Definition lift {B A} (r : result A) : M B A := λ w, (r, w).

Definition set_es {B} (w : world B) (h : option Elasticsearch) : world B :=
  {| self := {| _host_ip := _host_ip (self w);
                _host_port := _host_port (self w);
                index := index (self w);
                es := h;
                max_hits := max_hits (self w) |};
     backend := backend w; requests := requests w;
     files := files w; writable := writable w |}.

Definition set_file {B} (w : world B) (name content : string) : world B :=
  {| self := self w; backend := backend w; requests := requests w;
     files := <[name := content]> (files w); writable := writable w |}.

(** [with open(filename, 'r') as f: f.read()] *)
Definition file_read {B} (filename : string) : M B string :=
  λ w,
    match files w !! filename with
    | Some content => (Ok content, w)
    | None => (Raise (IOError filename), w)
    end.

(** [with open(filename, 'w') as f: f.write(output)] *)
Definition file_write {B} (filename output : string) : M B () :=
  λ w,
    if writable w filename then (Ok (), set_file w filename output)
    else (Raise (IOError filename), w).

Section Manager.
Context {B : Type}.

(** The backend: what it answers to a request, and how it changes. *)
Variable respond : es_call → B → result pyval * B.

(** The order in which [iteritems] visits a dictionary. *)
Variable iteritems : dict → list (string * pyval).

(** [repr] of a list or a dictionary, met only by ['%s' % v]. *)
Variable py_repr : pyval → string.

(** ['%s' % v] *)
Definition format_s (v : pyval) : string :=
  match v with
  | PStr s => s
  | PNone => "None"
  | PBool true => "True"
  | PBool false => "False"
  | PInt z => str (str_int z)
  | _ => py_repr v
  end.

(** [for x in v] *)
Definition py_iter (v : pyval) : result (list pyval) :=
  match v with
  | PList l => Ok l
  | PDict m => Ok ((λ kv, PStr kv.1) <$> iteritems m)
  | PStr s => Ok ((λ c, PStr (String c EmptyString)) <$> chars s)
  | _ => Raise TypeError
  end.

(** A request through [self.es]. *)
Definition es_request (c : es_call) : M B pyval :=
  λ w,
    match es (self w) with
    | None => (Raise AttributeError, w)
    | Some _ =>
        let '(r, b) := respond c (backend w) in
        (r, {| self := self w; backend := b; requests := c :: requests w;
               files := files w; writable := writable w |})
    end.

(** The same with [ignore=status]: the client returns instead of raising
    when the backend answers with that status. *)
Definition es_request_ignore (status : Z) (c : es_call) : M B pyval :=
  λ w,
    match es_request c w with
    | (Raise (TransportError s), w1) =>
        if bool_decide (s = status) then (Ok PNone, w1)
        else (Raise (TransportError s), w1)
    | other => other
    end.

Definition connect_es : M B () :=
  λ w,
    match es (self w) with
    | Some _ => (Ok (), w)
    | None =>
        (Ok (),
         set_es w (Some {| hosts := [(_host_ip (self w),
                                      _host_port (self w))] |}))
    end.

Definition read_object_from_file (filename : string) : M B pyval :=
  content ← file_read filename;
  lift (json_loads content).

Definition read_pkg_from_file (filename : string) : M B pyval :=
  content ← file_read filename;
  obj ← lift (json_loads content);
  lift (subscript obj "docs").

Definition put_object (obj : pyval) : M B pyval :=
  i ← lift (subscript obj "_index");
  if missing i then lift (Raise (Exception "Invalid Object, no index")) else
  d ← lift (subscript obj "_id");
  if missing d then lift (Raise (Exception "Invalid Object, no _id")) else
  t ← lift (subscript obj "_type");
  if missing t then lift (Raise (Exception "Invalid Object, no _type")) else
  s ← lift (subscript obj "_source");
  if missing s then lift (Raise (Exception "Invalid Object, no _source")) else
  connect_es;;
  es_request_ignore 400 (IndicesCreate i);;
  es_request (Index i d t s).

Fixpoint for_each {A} (f : A → M B pyval) (l : list A) : M B () :=
  match l with
  | [] => mret ()
  | x :: rest => f x;; for_each f rest
  end.

Definition put_pkg (objs : pyval) : M B () :=
  l ← lift (py_iter objs);
  for_each put_object l.


Definition del_object (obj : pyval) : M B pyval :=
  i ← lift (subscript obj "_index");
  if missing i then lift (Raise (Exception "Invalid Object")) else
  d ← lift (subscript obj "_id");
  if missing d then lift (Raise (Exception "Invalid Object")) else
  t ← lift (subscript obj "_type");
  if missing t then lift (Raise (Exception "Invalid Object")) else
  connect_es;;
  es_request (Delete i d t);;
  mret PNone.


Definition write_object_to_file (obj : pyval) (path : string) : M B string :=
  let output := json_dumps obj +:+ String newline EmptyString in
  t ← lift (subscript obj "_type");
  d ← lift (subscript obj "_id");
  let filename := path_join path (format_s t +:+ "-" +:+ format_s d +:+ ".json") in
  file_write filename output;;
  mret filename.


Definition write_pkg_to_file (name : string) (objects : dict) (path : string)
    : M B string :=
  let objs : dict := {[ "docs" := PList ((iteritems objects).*2) ]} in
  let output := json_dumps (PDict objs) +:+ String newline EmptyString in
  let filename := path_join path (name +:+ "-Pkg.json") in
  file_write filename output;;
  mret filename.

(** The body of the search request built by [get_objects]. *)
Definition query_of (max_hits : Z) (search_field search_val : string) : string :=
  "{ size: " +:+ str (str_int max_hits) +:+ ", " +:+
  "query: { filtered: { filter: { " +:+
  search_field +:+ ": { value: " +:+ String quote search_val +:+
  String quote " } } } } } }".

(** The loop of [get_objects] over the hits. *)
Fixpoint collect_hits (index : string) (docs : list pyval) (objects : dict)
    : result dict :=
  match docs with
  | [] => Ok objects
  | doc :: rest =>
      d ← subscript doc "_id";
      k ← as_key d;
      t ← subscript doc "_type";
      s ← subscript doc "_source";
      collect_hits index rest
        (<[k := PDict {[ "_index" := PStr index; "_type" := t;
                         "_id" := d; "_source" := s ]}]> objects)
  end.

Definition get_objects (search_field search_val : string) : M B dict :=
  λ w,
    let query := query_of (max_hits (self w)) search_field search_val in
    (connect_es;;
     res ← es_request (Search (index (self w)) query);
     lift (h ← subscript res "hits";
           hh ← subscript h "hits";
           docs ← py_iter hh;
           collect_hits (index (self w)) docs ∅)) w.

Definition get_config : M B dict := get_objects "type" "config".
Definition get_visualizations : M B dict := get_objects "type" "visualization".
Definition get_dashboards : M B dict := get_objects "type" "dashboard".
Definition get_searches : M B dict := get_objects "type" "search".

(** One of the two inner loops of [get_dashboard_full]:
    [for vname, vval in found.iteritems(): if vname == panel['id']: ...] *)
Fixpoint match_panel (items : list (string * pyval)) (panel : pyval)
    (objects : dict) : result dict :=
  match items with
  | [] => Ok objects
  | (vname, vval) :: rest =>
      pid ← subscript panel "id";
      match_panel rest panel
        (if key_eq vname pid then <[vname := vval]> objects else objects)
  end.

(** [for panel in panels: try: ... except KeyError: return {}], then
    [return objects]. *)
Fixpoint resolve_panels (vizs searches : dict) (panels : list pyval)
    (objects : dict) : result (option dict) :=
  match panels with
  | [] => Ok (Some objects)
  | panel :: rest =>
      match match_panel (iteritems vizs) panel objects
            ≫= match_panel (iteritems searches) panel with
      | Ok objects1 => resolve_panels vizs searches rest objects1
      | Raise (KeyError _) => Ok (Some ∅)
      | Raise e => Raise e
      end
  end.

(** The block under [if name == dboard:]. *)
Definition export_dashboard (dashboards vizs searches : dict) (name : string)
    (val : pyval) : result (option dict) :=
  let objects : dict := {[ name := val ]} in
  src ← subscript (PDict dashboards) name ≫= (λ d, subscript d "_source");
  pj ← subscript src "panelsJSON";
  panels ← match pj with
           | PStr s => json_loads s
           | _ => Raise TypeError
           end;
  l ← py_iter panels;
  resolve_panels vizs searches l objects.

(** [for name, val in dashboards.iteritems(): if name == dboard: ...]; when
    the loop ends without a match the function ends without [return], and
    the caller receives [None]. *)
Fixpoint find_dashboard (dashboards vizs searches : dict) (dboard : string)
    (items : list (string * pyval)) : result (option dict) :=
  match items with
  | [] => Ok None
  | (name, val) :: rest =>
      if bool_decide (name = dboard) then
        export_dashboard dashboards vizs searches name val
      else find_dashboard dashboards vizs searches dboard rest
  end.

Definition get_dashboard_full (dboard : string) : M B (option dict) :=
  dashboards ← get_objects "type" "dashboard";
  vizs ← get_objects "type" "visualization";
  searches ← get_objects "type" "search";
  lift (find_dashboard dashboards vizs searches dboard (iteritems dashboards)).

End Manager.

(** ** Predicates used in the statements *)

(** Text that may follow an integer without being read as part of it. *)
Definition ends_number (rest : text) : bool :=
  match rest with
  | [] => true
  | c :: _ =>
      match digit_of_char c with
      | Some _ => false
      | None => negb (float_follows rest)
      end
  end.

Definition is_number_start (c : ascii) : bool :=
  (c =? "-")%char || bool_decide (is_Some (digit_of_char c)).

(** The first character of an encoded value is not white space and closes
    no list or dictionary. *)
Definition starts_value (t : text) : Prop :=
  match t with
  | c :: _ =>
      is_ws c = false ∧ (c =? "]")%char = false ∧ (c =? "}")%char = false
  | [] => False
  end.

(** What the induction proves for each value. *)
Definition reads_back (v : pyval) : Prop :=
  ∀ level rest fuel,
    ends_number rest = true →
    (2 * pyval_size v ≤ S fuel)%nat →
    scan_once fuel (iterencode level v ++ rest) = Some (v, rest).

(** A scanner that succeeds leaves less text than it was given. *)
Definition consumes {A} (scan : text → option (A * text)) : Prop :=
  ∀ s a r, scan s = Some (a, r) → (length r < length s)%nat.


(** The metadata fields that [put_object] checks, in the order of the
    checks, each with the name that the error message gives it. *)
Definition required : list (string * string) :=
  [("_index", "index"); ("_id", "_id"); ("_type", "_type");
   ("_source", "_source")].

(** A hit of a search result, as far as [get_objects] reads it. *)
Definition well_formed_hit (h : pyval) : Prop :=
  ∃ (k : string) (t s : pyval),
    subscript h "_id" = Ok (PStr k) ∧
    subscript h "_type" = Ok t ∧
    subscript h "_source" = Ok s.

(** The Document that [get_objects] builds from a hit. *)
Definition normalized (index k : string) (t s : pyval) : pyval :=
  PDict {[ "_index" := PStr index; "_type" := t; "_id" := PStr k;
           "_source" := s ]}.

(** Does a panel of [panels] carry the id [p]? *)
Definition has_id (p : string) (panel : pyval) : bool :=
  match subscript panel "id" with
  | Ok v => key_eq p v
  | Raise _ => false
  end.

Definition mentions (p : string) (panels : list pyval) : bool :=
  existsb (has_id p) panels.

(** [objects] after [objects[k] = found[k]] when [found] has the key. *)
Definition overlay (found : dict) (k : string) (objects : dict) : dict :=
  match found !! k with
  | Some v => <[k := v]> objects
  | None => objects
  end.

Definition add_if (b : bool) (k : string) (v : pyval) (objects : dict) : dict :=
  if b then <[k := v]> objects else objects.

(** ** A backend to run the manager on concrete inputs

    An in-memory store of hits that honours the type filter of
    [get_objects], answers 400 to the creation of the index, which exists,
    and 404 to the deletion of a document that it does not hold. *)

Definition search_result (hits : list pyval) : pyval :=
  PDict {[ "hits" := PDict {[ "total" := PInt (Z.of_nat (length hits));
                              "hits" := PList hits ]} ]}.

Definition hit (type id : string) (source : pyval) : pyval :=
  PDict {[ "_index" := PStr ".kibana"; "_type" := PStr type;
           "_id" := PStr id; "_score" := PInt 1; "_source" := source ]}.

Definition matches (q : string) (h : pyval) : bool :=
  match subscript h "_type" with
  | Ok (PStr t) => bool_decide (q = query_of 9999 "type" t)
  | _ => false
  end.

Definition same_doc (d t : pyval) (h : pyval) : bool :=
  match subscript h "_id", subscript h "_type" with
  | Ok (PStr a), Ok (PStr b) => key_eq a d && key_eq b t
  | _, _ => false
  end.

Definition store_respond (c : es_call) (docs : list pyval)
    : result pyval * list pyval :=
  match c with
  | Search _ q => (Ok (search_result (filter (λ h, matches q h = true) docs)), docs)
  | IndicesCreate _ => (Raise (TransportError 400), docs)
  | Index i d t s =>
      (Ok (PDict {[ "_id" := d ]}),
       PDict {[ "_index" := i; "_type" := t; "_id" := d; "_source" := s ]}
       :: filter (λ h, same_doc d t h = false) docs)
  | Delete i d t =>
      if existsb (same_doc d t) docs
      then (Ok (PDict {[ "found" := PBool true ]}),
            filter (λ h, same_doc d t h = false) docs)
      else (Raise (TransportError 404), docs)
  end.

(** A backend that answers every search with the same hits, whatever the
    query. *)
Definition fixed_respond (hits : list pyval) (c : es_call) (b : ())
    : result pyval * () :=
  match c with
  | Search _ _ => (Ok (search_result hits), b)
  | _ => (Ok PNone, b)
  end.

Definition world_of {B} (b : B) : world B :=
  {| self := init ".kibana" ("localhost", 9200); backend := b;
     requests := []; files := ∅; writable := λ _, true |}.

(** ** Concrete inputs *)

Definition panel (id : string) : pyval :=
  PDict {[ "col" := PInt 1; "id" := PStr id; "row" := PInt 1;
           "type" := PStr "visualization" ]}.

Definition panel_without_id : pyval :=
  PDict {[ "col" := PInt 1; "row" := PInt 1;
           "type" := PStr "visualization" ]}.

(** The [_source] of a dashboard: [panelsJSON] holds the panels as text. *)
Definition dashboard_source (panels : list pyval) : pyval :=
  PDict {[ "title" := PStr "Overview";
           "panelsJSON" := PStr (json_dumps (PList panels)) ]}.

Definition titled (title : string) : pyval :=
  PDict {[ "title" := PStr title; "version" := PInt 1 ]}.

(** A dashboard with one visualization and one saved search. *)
Definition store_closure : list pyval :=
  [ hit "dashboard" "X" (dashboard_source [panel "V1"; panel "S1"]);
    hit "visualization" "V1" (titled "Requests");
    hit "visualization" "V2" (titled "Errors");
    hit "search" "S1" (titled "Slow queries") ].

(** A dashboard and one of its visualizations under the same id. *)
Definition store_same_id : list pyval :=
  [ hit "dashboard" "Traffic" (dashboard_source [panel "Traffic"; panel "S1"]);
    hit "visualization" "Traffic" (titled "Traffic");
    hit "search" "S1" (titled "Slow queries") ].

(** A dashboard with a panel that has no id, and nothing else. *)
Definition store_alone : list pyval :=
  [ hit "dashboard" "X" (dashboard_source [panel_without_id]) ].

(** The same dashboard next to a saved search. *)
Definition store_with_search : list pyval :=
  [ hit "dashboard" "X" (dashboard_source [panel "S1"; panel_without_id]);
    hit "search" "S1" (titled "Slow queries") ].



Definition document (index id type : pyval) (source : pyval) : pyval :=
  PDict {[ "_index" := index; "_id" := id; "_type" := type;
           "_source" := source ]}.

(** ** Further predicates *)

(** The world after the manager has connected and the backend, now in
    state [b], has received the requests [calls], latest first. *)
Definition after_requests {B} (w : world B) (b : B) (calls : list es_call)
    : world B :=
  {| self := self (connect_es w).2; backend := b;
     requests := calls ++ requests w;
     files := files w; writable := writable w |}.

(** An answer that a request with [ignore=status] returns instead of
    raising. *)
Definition ignored (status : Z) (r : result pyval) : bool :=
  match r with
  | Ok _ => true
  | Raise (TransportError s) => bool_decide (s = status)
  | Raise _ => false
  end.

(** A Document whose [_type] and [_id] are strings, and the file that
    [write_object_to_file] gives it under [path]. *)
Definition named (obj : pyval) : Prop :=
  ∃ t k : string,
    subscript obj "_type" = Ok (PStr t) ∧ subscript obj "_id" = Ok (PStr k).

Definition object_file (path : string) (obj : pyval) : string :=
  match subscript obj "_type", subscript obj "_id" with
  | Ok (PStr t), Ok (PStr k) => path_join path (t +:+ "-" +:+ k +:+ ".json")
  | _, _ => path
  end.

(** What one panel id adds to the result of [get_dashboard_full]. *)
Definition resolve_step (vizs searches : dict) (pid : pyval) (objects : dict)
    : dict :=
  match pid with
  | PStr id => overlay searches id (overlay vizs id objects)
  | _ => objects
  end.


(** Printable ASCII characters and the newline. *)
Definition plain (c : ascii) : bool :=
  (c =? newline)%char || ((32 <=? code c) && (code c <=? 126))%N.

Definition all_plain (t : text) : Prop := forallb plain t = true.

(** * Facts about the model *)

(** ** Induction on values *)

Lemma pyval_size_list_elem (l : list pyval) (x : pyval) :
  x ∈ l → (pyval_size x < pyval_size (PList l))%nat.
Proof.
  induction 1 as [x l|x y l _ IH]; simpl in *; lia.
Qed.

Lemma pyval_size_dict_elem (m : dict) (k : string) (x : pyval) :
  m !! k = Some x → (pyval_size x < pyval_size (PDict m))%nat.
Proof.
  intros Hk. simpl.
  rewrite (map_fold_delete_L _ _ k x m); [lia | | done].
  intros. lia.
Qed.

Lemma pyval_ind_nested (P : pyval → Prop) :
  P PNone →
  (∀ b, P (PBool b)) →
  (∀ z, P (PInt z)) →
  (∀ s, P (PStr s)) →
  (∀ l, Forall P l → P (PList l)) →
  (∀ m, map_Forall (λ _, P) m → P (PDict m)) →
  ∀ v, P v.
Proof.
  intros HN HB HI HS HL HD v.
  remember (pyval_size v) as n eqn:Hn.
  revert v Hn. induction n as [n IH] using lt_wf_ind. intros v ->.
  destruct v as [| | | |l|m]; auto.
  - apply HL, Forall_forall. intros x Hx.
    eapply IH; [|reflexivity]. by apply pyval_size_list_elem.
  - apply HD. intros k x Hk.
    eapply IH; [|reflexivity]. by eapply pyval_size_dict_elem.
Qed.

(** ** Text *)

Lemma chars_str (t : text) : chars (str t) = t.
Proof. apply list_ascii_of_string_of_list_ascii. Qed.

Lemma str_chars (s : string) : str (chars s) = s.
Proof. apply string_of_list_ascii_of_string. Qed.

Lemma chars_append (a b : string) : chars (a +:+ b) = chars a ++ chars b.
Proof. induction a as [|c a IH]; simpl; [done | by rewrite <- IH]. Qed.

(** ** Integers: [scan_number] reads back what [str_int] prints *)

Lemma scan_digits_stop (rest : text) :
  ends_number rest = true → scan_digits rest = (Nil, rest).
Proof.
  destruct rest as [|c r]; simpl; [done|].
  by destruct (digit_of_char c).
Qed.

Lemma scan_digits_uint_chars (u : uint) (rest : text) :
  ends_number rest = true → scan_digits (uint_chars u ++ rest) = (u, rest).
Proof.
  intros Hr. induction u; simpl; rewrite ?IHu; auto using scan_digits_stop.
Qed.

Lemma to_uint_normal (n : N) : unorm (N.to_uint n) = N.to_uint n.
Proof.
  rewrite <- (DecimalN.Unsigned.to_of (N.to_uint n)).
  by rewrite DecimalN.Unsigned.of_to.
Qed.

Lemma to_uint_not_nil (n : N) : N.to_uint n ≠ Nil.
Proof. rewrite <- to_uint_normal. apply unorm_nonnil. Qed.

Lemma to_uint_leading_zero (n : N) (u : uint) :
  N.to_uint n = D0 u → u = Nil.
Proof.
  intros H. pose proof (to_uint_normal n) as Hn. rewrite H in Hn.
  rewrite unorm_D0 in Hn. unfold unorm in Hn.
  destruct (nzhead u) eqn:Hz; try (by destruct (nzhead_nonzero u u)).
  - by inversion Hn.
  - exfalso. eapply nzhead_nonzero. rewrite Hz, Hn. reflexivity.
Qed.

Lemma ends_number_no_float (rest : text) :
  ends_number rest = true → float_follows rest = false.
Proof.
  destruct rest as [|c r]; [done|]. unfold ends_number.
  destruct (digit_of_char c); [done|]. by destruct (float_follows (c :: r)).
Qed.

Lemma scan_int_part_uint_chars (n : N) (rest : text) :
  ends_number rest = true →
  scan_int_part (uint_chars (N.to_uint n) ++ rest) = (N.to_uint n, rest).
Proof.
  intros Hr. pose proof (to_uint_not_nil n) as Hnil. unfold scan_int_part.
  destruct (N.to_uint n) as [|u|u|u|u|u|u|u|u|u|u] eqn:E; [done|..];
    try (simpl; by rewrite scan_digits_uint_chars).
  apply to_uint_leading_zero in E as ->. reflexivity.
Qed.

Lemma uint_chars_head (n : N) :
  ∃ c t, uint_chars (N.to_uint n) = c :: t ∧ is_Some (digit_of_char c).
Proof.
  pose proof (to_uint_not_nil n) as Hnil.
  destruct (N.to_uint n); [done|..]; simpl; eauto.
Qed.

Lemma finish_number_to_uint (n : N) (neg : bool) (rest : text) :
  ends_number rest = true →
  finish_number neg (N.to_uint n) rest
  = Some (if neg then - Z.of_N n else Z.of_N n, rest).
Proof.
  intros Hr. pose proof (to_uint_not_nil n) as Hnil.
  pose proof (DecimalN.Unsigned.of_to n) as Hn. unfold finish_number.
  rewrite (ends_number_no_float _ Hr).
  destruct (N.to_uint n); [done|..]; cbv zeta; by rewrite Hn.
Qed.

Lemma scan_number_str_int (z : Z) (rest : text) :
  ends_number rest = true →
  scan_number (str_int z ++ rest) = Some (z, rest).
Proof.
  intros Hr. unfold str_int, scan_number.
  destruct (Z.ltb_spec z 0) as [Hneg|Hpos].
  - change (("-"%char :: ?t) ++ rest) with ("-"%char :: (t ++ rest)).
    cbv beta iota. replace ("-" =? "-")%char with true by reflexivity.
    rewrite scan_int_part_uint_chars by done.
    rewrite finish_number_to_uint by done.
    do 2 f_equal. lia.
  - destruct (uint_chars_head (Z.to_N z)) as (c & t & Hc & Hd).
    assert ((c =? "-")%char = false) as Hminus.
    { destruct (Ascii.eqb_spec c "-"%char) as [->|]; [|done].
      by destruct Hd. }
    pose proof (scan_int_part_uint_chars (Z.to_N z) rest Hr) as Hu.
    rewrite Hc in *. simpl app in *. cbv beta iota. rewrite Hminus.
    cbv beta iota.
    rewrite Hu.
    rewrite finish_number_to_uint by done.
    do 2 f_equal. lia.
Qed.

(** ** Strings: [scanstring] reads back what [encode_string] prints *)

Lemma scanstring_escape_char (c : ascii) (tail : text) :
  scanstring (escape_char c ++ tail)
  = match scanstring tail with
    | Some (t, rest) => Some (c :: t, rest)
    | None => None
    end.
Proof.
  destruct c as [[] [] [] [] [] [] [] []]; reflexivity.
Qed.

Lemma scanstring_escaped (l : text) (rest : text) :
  scanstring (mjoin (escape_char <$> l) ++ quote :: rest) = Some (l, rest).
Proof.
  induction l as [|c l IH]; [reflexivity|].
  change (mjoin (escape_char <$> c :: l))
    with (escape_char c ++ mjoin (escape_char <$> l)).
  rewrite <- app_assoc, scanstring_escape_char. by rewrite IH.
Qed.

Lemma encode_string_app (s : string) (rest : text) :
  encode_string s ++ rest
  = quote :: mjoin (escape_char <$> chars s) ++ quote :: rest.
Proof. unfold encode_string. simpl. by rewrite <- app_assoc. Qed.

(** ** Values: [scan_once] reads back what [iterencode] prints *)

Lemma number_start_starts_value (c : ascii) (t : text) :
  is_number_start c = true → starts_value (c :: t).
Proof.
  destruct c as [[] [] [] [] [] [] [] []]; intros H; vm_compute in H;
    try discriminate H; repeat split.
Qed.

Lemma str_int_head (z : Z) :
  ∃ c t, str_int z = c :: t ∧ is_number_start c = true.
Proof.
  unfold str_int. destruct (z <? 0); [by eexists _, _|].
  destruct (uint_chars_head (Z.to_N z)) as (c & t & -> & Hd).
  exists c, t. split; [done|]. unfold is_number_start.
  rewrite (bool_decide_eq_true_2 _ Hd). apply orb_true_r.
Qed.

Lemma scan_once_number (fuel : nat) (c : ascii) (t : text) :
  is_number_start c = true →
  scan_once (S fuel) (c :: t)
  = match scan_number (c :: t) with
    | Some (z, rest) => Some (PInt z, rest)
    | None => None
    end.
Proof.
  destruct c as [[] [] [] [] [] [] [] []]; intros H; vm_compute in H;
    try discriminate H; reflexivity.
Qed.

Lemma scan_once_quote (fuel : nat) (t : text) :
  scan_once (S fuel) (quote :: t)
  = match scanstring t with
    | Some (s, rest) => Some (PStr (str s), rest)
    | None => None
    end.
Proof. reflexivity. Qed.

Lemma scan_once_bracket (fuel : nat) (t : text) :
  scan_once (S fuel) ("["%char :: t)
  = match skip_ws t with
    | [] => None
    | c1 :: r1 =>
        if (c1 =? "]")%char then Some (PList [], r1)
        else
          match scan_elements fuel (c1 :: r1) with
          | Some (vs, rest) => Some (PList vs, rest)
          | None => None
          end
    end.
Proof. reflexivity. Qed.

Lemma scan_once_brace (fuel : nat) (t : text) :
  scan_once (S fuel) ("{"%char :: t)
  = match skip_ws t with
    | [] => None
    | c1 :: r1 =>
        if (c1 =? "}")%char then Some (PDict ∅, r1)
        else
          match scan_members fuel (c1 :: r1) with
          | Some (kvs, rest) => Some (PDict (dict_of_pairs kvs), rest)
          | None => None
          end
    end.
Proof. reflexivity. Qed.

Lemma scan_elements_eq (fuel : nat) (s : text) :
  scan_elements (S fuel) s
  = match scan_once fuel s with
    | None => None
    | Some (v, r) =>
        match skip_ws r with
        | [] => None
        | c :: r1 =>
            if (c =? ",")%char then
              match scan_elements fuel (skip_ws r1) with
              | Some (vs, rest) => Some (v :: vs, rest)
              | None => None
              end
            else if (c =? "]")%char then Some ([v], r1)
            else None
        end
    end.
Proof. reflexivity. Qed.

Lemma scan_members_eq (fuel : nat) (r : text) :
  scan_members (S fuel) (quote :: r)
  = match scanstring r with
    | None => None
    | Some (k, r1) =>
        match skip_ws r1 with
        | [] => None
        | c :: r2 =>
            if negb (c =? ":")%char then None
            else
              match scan_once fuel (skip_ws r2) with
              | None => None
              | Some (v, r3) =>
                  match skip_ws r3 with
                  | [] => None
                  | d :: r4 =>
                      if (d =? ",")%char then
                        match scan_members fuel (skip_ws r4) with
                        | Some (kvs, rest) => Some ((str k, v) :: kvs, rest)
                        | None => None
                        end
                      else if (d =? "}")%char then Some ([(str k, v)], r4)
                      else None
                  end
              end
        end
    end.
Proof. reflexivity. Qed.

Lemma skip_ws_starts_value (t : text) : starts_value t → skip_ws t = t.
Proof. destruct t as [|c t]; [done|]. intros (Hw & _). simpl. by rewrite Hw. Qed.

Lemma skip_ws_spaces (n : nat) (t : text) :
  skip_ws (replicate n " "%char ++ t) = skip_ws t.
Proof. induction n as [|n IH]; [done|]. simpl. apply IH. Qed.

Lemma skip_ws_newline_indent (level : nat) (t : text) :
  skip_ws (newline_indent level ++ t) = skip_ws t.
Proof. unfold newline_indent. simpl. apply skip_ws_spaces. Qed.

Lemma ends_number_newline_indent (level : nat) (t : text) :
  ends_number (newline_indent level ++ t) = true.
Proof. reflexivity. Qed.

Lemma iterencode_list (level : nat) (x : pyval) (xs : list pyval) :
  iterencode level (PList (x :: xs))
  = "["%char :: newline_indent (S level)
    ++ join_with (","%char :: newline_indent (S level))
         (map (iterencode (S level)) (x :: xs))
    ++ newline_indent level ++ ["]"%char].
Proof. reflexivity. Qed.

Lemma iterencode_dict (level : nat) (m : dict) :
  iterencode level (PDict m)
  = let items :=
      merge_sort key_le
        (map_fold (λ k v acc, (k, iterencode (S level) v) :: acc) [] m) in
    match items with
    | [] => chars "{}"
    | _ =>
        "{"%char :: newline_indent (S level)
        ++ join_with (","%char :: newline_indent (S level))
             (map (λ kt, encode_string kt.1 ++ chars ": " ++ kt.2) items)
        ++ newline_indent level ++ ["}"%char]
    end.
Proof. reflexivity. Qed.

Lemma iterencode_starts (level : nat) (v : pyval) :
  starts_value (iterencode level v).
Proof.
  destruct v as [|[]|z|s|l|m]; try (repeat split; fail).
  - change (iterencode level (PInt z)) with (str_int z).
    destruct (str_int_head z) as (c & t & -> & Hc).
    by apply number_start_starts_value.
  - destruct l; repeat split.
  - rewrite iterencode_dict. cbv zeta. destruct (merge_sort _ _); repeat split.
Qed.

Lemma join_with_cons (sep p : text) (ps : list text) (tail : text) :
  join_with sep (p :: ps) ++ tail
  = p ++ match ps with
         | [] => tail
         | _ => sep ++ (join_with sep ps ++ tail)
         end.
Proof. destruct ps; simpl; by rewrite <- ?app_assoc. Qed.

Lemma starts_value_app (a b : text) : starts_value a → starts_value (a ++ b).
Proof. by destruct a. Qed.

Lemma pyval_size_pos (v : pyval) : (1 ≤ pyval_size v)%nat.
Proof. destruct v; simpl; lia. Qed.

Lemma foldr_sum_list {A} (f : A → nat) (l : list A) :
  foldr (λ x acc, f x + acc)%nat 0%nat l = sum_list (f <$> l).
Proof. induction l as [|x l IH]; simpl; [done | by rewrite IH]. Qed.

Lemma pyval_size_list (l : list pyval) :
  pyval_size (PList l) = S (sum_list (pyval_size <$> l)).
Proof.
  change (pyval_size (PList l))
    with (S (foldr (λ x acc, pyval_size x + acc)%nat 0%nat l)).
  by rewrite foldr_sum_list.
Qed.

Lemma pyval_size_dict (m : dict) :
  pyval_size (PDict m) = S (sum_list (pyval_size <$> (map_to_list m).*2)).
Proof.
  change (pyval_size (PDict m))
    with (S (map_fold (λ _ x acc, pyval_size x + acc)%nat 0%nat m)).
  rewrite map_fold_foldr. f_equal.
  rewrite <- foldr_sum_list.
  induction (map_to_list m) as [|[k v] l IH]; simpl; [done | by rewrite IH].
Qed.

Lemma scan_elements_join (level level' : nat) (xs : list pyval) :
  Forall reads_back xs →
  ∀ (x : pyval) (rest : text) (fuel : nat),
    reads_back x →
    (2 * sum_list (pyval_size <$> x :: xs) ≤ fuel)%nat →
    scan_elements fuel
      (join_with (","%char :: newline_indent level)
         (map (iterencode level) (x :: xs))
       ++ newline_indent level' ++ "]"%char :: rest)
    = Some (x :: xs, rest).
Proof.
  induction 1 as [|y ys Hy Hys IH]; intros x rest fuel Hx Hfuel.
  - pose proof (pyval_size_pos x). simpl in Hfuel.
    destruct fuel as [|fuel]; [lia|].
    rewrite scan_elements_eq.
    change (map (iterencode level) [x]) with [iterencode level x].
    rewrite join_with_cons.
    rewrite Hx; [|apply ends_number_newline_indent|lia].
    rewrite skip_ws_newline_indent. reflexivity.
  - pose proof (pyval_size_pos x). rewrite !fmap_cons in Hfuel.
    simpl sum_list in Hfuel.
    destruct fuel as [|fuel]; [lia|].
    rewrite scan_elements_eq.
    change (map (iterencode level) (x :: y :: ys))
      with (iterencode level x :: map (iterencode level) (y :: ys)).
    rewrite join_with_cons.
    change (map (iterencode level) (y :: ys))
      with (iterencode level y :: map (iterencode level) ys) at 1.
    cbv iota.
    rewrite Hx; [|reflexivity|lia].
    change (skip_ws ((","%char :: ?a) ++ ?b)) with ((","%char :: a) ++ b).
    change ((","%char :: ?a) ++ ?b) with (","%char :: (a ++ b)).
    cbv iota. replace ("," =? ",")%char with true by reflexivity.
    rewrite skip_ws_newline_indent.
    rewrite skip_ws_starts_value.
    2:{ rewrite map_cons, join_with_cons.
        apply starts_value_app, iterencode_starts. }
    rewrite IH; [done|done|].
    rewrite fmap_cons. simpl sum_list. lia.
Qed.

Lemma member_text_app (k : string) (t tail : text) :
  (encode_string k ++ chars ": " ++ t) ++ tail
  = quote :: (mjoin (escape_char <$> chars k)
              ++ quote :: ":"%char :: " "%char :: (t ++ tail)).
Proof.
  unfold encode_string. simpl. f_equal. rewrite <- !app_assoc. reflexivity.
Qed.

Lemma scan_members_join (level level' : nat) (kvs : list (string * pyval)) :
  Forall (λ kv, reads_back kv.2) kvs →
  ∀ (kv : string * pyval) (rest : text) (fuel : nat),
    reads_back kv.2 →
    (2 * sum_list (pyval_size <$> (kv :: kvs).*2) ≤ fuel)%nat →
    scan_members fuel
      (join_with (","%char :: newline_indent level)
         (map (λ kv, encode_string kv.1 ++ chars ": " ++ iterencode level kv.2)
              (kv :: kvs))
       ++ newline_indent level' ++ "}"%char :: rest)
    = Some (kv :: kvs, rest).
Proof.
  induction 1 as [|kv' kvs Hy Hys IH]; intros [k v] rest fuel Hx Hfuel;
    pose proof (pyval_size_pos v); rewrite !fmap_cons in Hfuel;
    simpl sum_list in Hfuel; simpl in Hx;
    (destruct fuel as [|fuel]; [lia|]);
    rewrite map_cons, join_with_cons; cbv beta;
    rewrite member_text_app, scan_members_eq, scanstring_escaped;
    change (skip_ws (":"%char :: " "%char :: ?t)) with (":"%char :: " "%char :: t);
    cbv iota; replace (negb (":" =? ":")%char) with false by reflexivity;
    change (skip_ws (" "%char :: ?t)) with (skip_ws t);
    (rewrite skip_ws_starts_value
       by apply starts_value_app, iterencode_starts);
    rewrite str_chars.
  - simpl map. cbv iota. simpl fst. simpl snd.
    rewrite Hx; [|apply ends_number_newline_indent|lia].
    rewrite skip_ws_newline_indent. reflexivity.
  - destruct kv' as [k' v']. simpl snd in Hfuel.
    change (map ?f ((k', v') :: kvs)) with (f (k', v') :: map f kvs) at 1.
    cbv iota. simpl fst; simpl snd.
    rewrite Hx; [|reflexivity|lia].
    change (skip_ws ((","%char :: ?a) ++ ?b)) with ((","%char :: a) ++ b).
    change ((","%char :: ?a) ++ ?b) with (","%char :: (a ++ b)).
    cbv iota. replace ("," =? ",")%char with true by reflexivity.
    rewrite skip_ws_newline_indent.
    rewrite skip_ws_starts_value.
    2:{ rewrite map_cons, join_with_cons, member_text_app. repeat split. }
    rewrite IH; [done|done|].
    rewrite !fmap_cons. simpl sum_list. simpl snd. lia.
Qed.

Lemma sum_list_perm (l1 l2 : list nat) :
  l1 ≡ₚ l2 → sum_list l1 = sum_list l2.
Proof. induction 1; simpl; lia. Qed.

Lemma map_fold_items {A} (g : pyval → A) (m : dict) :
  map_fold (λ k v acc, (k, g v) :: acc) [] m
  = map (λ kv, (kv.1, g kv.2)) (map_to_list m).
Proof.
  rewrite map_fold_foldr.
  induction (map_to_list m) as [|[k v] l IH]; simpl; [done | by rewrite IH].
Qed.

Lemma sorted_items (g : pyval → text) (m : dict) :
  ∃ kvs,
    merge_sort key_le (map (λ kv, (kv.1, g kv.2)) (map_to_list m))
    = map (λ kv, (kv.1, g kv.2)) kvs
    ∧ kvs ≡ₚ map_to_list m.
Proof.
  pose proof (merge_sort_Permutation key_le
                (map (λ kv : string * pyval, (kv.1, g kv.2)) (map_to_list m)))
    as Hs.
  apply Permutation_map_inv in Hs as (kvs & Heq & Hp).
  exists kvs. split; [done | by symmetry].
Qed.

Lemma foldl_insert_pairs (kvs : list (string * pyval)) (m0 : dict) :
  foldl (λ m kv, <[kv.1 := kv.2]> m) m0 kvs
  = list_to_map (reverse kvs) ∪ m0.
Proof.
  revert m0. induction kvs as [|[k v] kvs IH]; intros m0.
  - simpl. by rewrite (left_id_L ∅ (∪)).
  - simpl. rewrite IH, reverse_cons, list_to_map_app. simpl.
    rewrite <- (assoc_L (∪)). f_equal.
    by rewrite insert_union_singleton_l, insert_empty.
Qed.

Lemma dict_of_pairs_items (kvs : list (string * pyval)) (m : dict) :
  kvs ≡ₚ map_to_list m → dict_of_pairs kvs = m.
Proof.
  intros Hp. unfold dict_of_pairs.
  rewrite foldl_insert_pairs, (right_id_L ∅ (∪)).
  etrans; [|apply (list_to_map_to_list m)].
  symmetry. apply list_to_map_proper.
  - apply NoDup_fst_map_to_list.
  - by rewrite reverse_Permutation.
Qed.

Lemma iterencode_reads_back (v : pyval) : reads_back v.
Proof.
  induction v as [| b | z | s | l IH | m IH] using pyval_ind_nested;
    intros level rest fuel Hr Hfuel.
  - destruct fuel as [|fuel]; [simpl in Hfuel; lia | reflexivity].
  - destruct fuel as [|fuel]; [simpl in Hfuel; lia | by destruct b].
  - destruct fuel as [|fuel]; [simpl in Hfuel; lia |].
    change (iterencode level (PInt z)) with (str_int z).
    destruct (str_int_head z) as (c & t & Hc & Hs).
    pose proof (scan_number_str_int z rest Hr) as Hn.
    rewrite Hc in *. simpl app in *.
    by rewrite scan_once_number, Hn.
  - destruct fuel as [|fuel]; [simpl in Hfuel; lia |].
    change (iterencode level (PStr s)) with (encode_string s).
    rewrite encode_string_app, scan_once_quote, scanstring_escaped.
    by rewrite str_chars.
  - rewrite pyval_size_list in Hfuel.
    destruct fuel as [|fuel]; [lia|].
    destruct l as [|x xs]; [reflexivity|].
    rewrite iterencode_list.
    rewrite <- app_comm_cons, <- !app_assoc.
    rewrite scan_once_bracket, skip_ws_newline_indent.
    apply Forall_cons in IH as [Hx Hxs].
    rewrite skip_ws_starts_value.
    2:{ rewrite map_cons, join_with_cons.
        apply starts_value_app, iterencode_starts. }
    pose proof (scan_elements_join (S level) level xs Hxs x rest fuel Hx
                  ltac:(lia)) as Hscan.
    pose proof (iterencode_starts (S level) x) as Hst.
    change (["]"%char] ++ rest) with ("]"%char :: rest).
    revert Hscan. rewrite (map_cons (iterencode (S level))), join_with_cons.
    destruct (iterencode (S level) x) as [|c t]; [done|].
    destruct Hst as (_ & Hb & _).
    rewrite <- app_comm_cons. rewrite Hb.
    by intros ->.
  - rewrite pyval_size_dict in Hfuel.
    destruct fuel as [|fuel]; [lia|].
    rewrite iterencode_dict. cbv zeta. rewrite map_fold_items.
    destruct (sorted_items (iterencode (S level)) m) as (kvs & -> & Hp).
    destruct kvs as [|[k v] kvs].
    + apply Permutation_nil, map_to_list_empty_iff in Hp as ->.
      reflexivity.
    + assert (Forall (λ kv : string * pyval, reads_back kv.2)
                ((k, v) :: kvs)) as Hall.
      { apply Forall_forall. intros [k' v'] Hin.
        rewrite Hp in Hin. apply elem_of_map_to_list in Hin.
        exact (IH k' v' Hin). }
      apply Forall_cons in Hall as [Hx Hxs].
      rewrite <- (sum_list_perm _ _
                   (fmap_Permutation pyval_size _ _
                      (fmap_Permutation snd _ _ Hp))) in Hfuel.
      change (map ?f ((k, v) :: kvs)) with (f (k, v) :: map f kvs) at 1.
      cbv iota. rewrite map_map.
      rewrite <- app_comm_cons, <- !app_assoc.
      rewrite scan_once_brace, skip_ws_newline_indent.
      pose proof (scan_members_join (S level) level kvs Hxs (k, v) rest fuel Hx
                    ltac:(lia)) as Hscan.
      change (["}"%char] ++ rest) with ("}"%char :: rest).
      revert Hscan. rewrite !map_cons, !join_with_cons.
      cbv beta. simpl fst. simpl snd.
      rewrite !member_text_app.
      change (skip_ws (quote :: ?t)) with (quote :: t).
      cbv iota. replace (quote =? "}")%char with false by reflexivity.
      intros ->.
      by rewrite (dict_of_pairs_items _ m).
Qed.

(** ** [json.loads] after [json_dumps] *)

Lemma length_join_with (sep : text) (parts : list text) :
  (sum_list (length <$> parts) ≤ length (join_with sep parts))%nat.
Proof.
  induction parts as [|p [|q ps] IH]; simpl in *; rewrite ?length_app; lia.
Qed.

Lemma sum_list_le {A} (f g : A → nat) (l : list A) :
  Forall (λ x, f x ≤ g x)%nat l →
  (sum_list (f <$> l) ≤ sum_list (g <$> l))%nat.
Proof.
  induction 1 as [|x l Hx Hl IH]; [done|].
  rewrite !fmap_cons. simpl sum_list. lia.
Qed.

Lemma iterencode_length (v : pyval) (level : nat) :
  (pyval_size v ≤ length (iterencode level v))%nat.
Proof.
  revert level.
  induction v as [| b | z | s | l IH | m IH] using pyval_ind_nested;
    intros level.
  - simpl. lia.
  - destruct b; simpl; lia.
  - change (iterencode level (PInt z)) with (str_int z).
    destruct (str_int_head z) as (c & t & -> & _). simpl. lia.
  - change (iterencode level (PStr s)) with (encode_string s).
    unfold encode_string. simpl. lia.
  - rewrite pyval_size_list. destruct l as [|x xs]; [simpl; lia|].
    rewrite iterencode_list. rewrite length_cons, !length_app.
    pose proof (length_join_with (","%char :: newline_indent (S level))
                  (map (iterencode (S level)) (x :: xs))) as Hj.
    assert (sum_list (pyval_size <$> x :: xs)
            ≤ sum_list (length <$> map (iterencode (S level)) (x :: xs)))%nat
      as Hs.
    { rewrite <- list_fmap_compose. apply sum_list_le.
      eapply Forall_impl; [exact IH|]. intros y Hy. apply Hy. }
    lia.
  - rewrite pyval_size_dict, iterencode_dict. cbv zeta.
    rewrite map_fold_items.
    destruct (sorted_items (iterencode (S level)) m) as (kvs & -> & Hp).
    rewrite <- (sum_list_perm _ _
                 (fmap_Permutation pyval_size _ _
                    (fmap_Permutation snd _ _ Hp))).
    destruct kvs as [|kv kvs]; [simpl; lia|].
    change (map ?f (kv :: kvs)) with (f kv :: map f kvs) at 1. cbv iota.
    rewrite length_cons, !length_app.
    match goal with
    | |- context [join_with ?sep ?parts] =>
        pose proof (length_join_with sep parts) as Hj;
        assert (sum_list (pyval_size <$> (kv :: kvs).*2)
                ≤ sum_list (length <$> parts))%nat as Hs
    end.
    { rewrite map_map, <- !list_fmap_compose. apply sum_list_le.
      apply Forall_forall. intros [k' v'] Hin.
      rewrite Hp in Hin. apply elem_of_map_to_list in Hin.
      pose proof (IH k' v' Hin (S level)) as Hv.
      simpl. rewrite !length_app, !length_cons. lia. }
    lia.
Qed.

Lemma json_loads_dumps_text (v : pyval) (trailer : text) :
  ends_number trailer = true →
  skip_ws trailer = [] →
  json_loads (str (iterencode 0 v ++ trailer)) = Ok v.
Proof.
  intros He Hw. unfold json_loads. rewrite chars_str.
  rewrite skip_ws_starts_value by apply starts_value_app, iterencode_starts.
  rewrite (iterencode_reads_back v 0%nat trailer); [by rewrite Hw|done|].
  rewrite length_app. pose proof (iterencode_length v 0%nat). lia.
Qed.

Lemma json_loads_dumps (v : pyval) : json_loads (json_dumps v) = Ok v.
Proof.
  unfold json_dumps. rewrite <- (app_nil_r (iterencode 0 v)).
  by apply json_loads_dumps_text.
Qed.

Lemma json_loads_dumps_line (v : pyval) :
  json_loads (json_dumps v +:+ String newline EmptyString) = Ok v.
Proof.
  rewrite <- (json_loads_dumps_text v [newline]) by done.
  f_equal. unfold json_dumps.
  rewrite <- (str_chars (_ +:+ _)). by rewrite chars_append, chars_str.
Qed.

(** ** The bound on the depth of the decoder is never reached

    Each scanner consumes text, so a text of length [n] needs a depth of
    [2 * n + 1] at most, and [json_loads] gives the same answer with any
    larger bound. *)

Lemma skip_ws_length (s : text) : (length (skip_ws s) ≤ length s)%nat.
Proof.
  induction s as [|c s IH]; simpl; [lia|]. destruct (is_ws c); simpl; lia.
Qed.

Lemma scanstring_length (n : nat) (s t r : text) :
  (length s ≤ n)%nat → scanstring s = Some (t, r) → (length r < length s)%nat.
Proof.
  revert s t r. induction n as [|n IH]; intros s t r Hn Hs.
  - destruct s; [done | simpl in Hn; lia].
  - destruct s as [|c s]; [done|]. simpl in Hs, Hn.
    repeat (case_match; simplify_eq; simpl in *; try lia);
      match goal with
      | H : scanstring ?x = Some _ |- _ => apply IH in H; simpl; lia
      end.
Qed.

Lemma scan_digits_length (s : text) (u : uint) (r : text) :
  scan_digits s = (u, r) →
  (length r ≤ length s)%nat ∧ (u ≠ Nil → length r < length s)%nat.
Proof.
  revert u r. induction s as [|c s IH]; intros u r H; simpl in H.
  - by simplify_eq.
  - destruct (digit_of_char c) as [d|]; [|by simplify_eq].
    destruct (scan_digits s) as [u' r'] eqn:E. simplify_eq.
    destruct (IH _ _ eq_refl) as [Hle _]. simpl. split; lia.
Qed.

Lemma scan_number_length (s : text) (z : Z) (r : text) :
  scan_number s = Some (z, r) → (length r < length s)%nat.
Proof.
  unfold scan_number, scan_int_part, finish_number. intros H.
  repeat (case_match; simplify_eq; simpl in *; try lia);
    match goal with
    | H : scan_digits _ = _ |- _ =>
        apply scan_digits_length in H as [? Hlt]; simpl in *;
        try (specialize (Hlt ltac:(done))); lia
    end.
Qed.

Lemma strip_prefix_length (p s r : text) :
  strip_prefix p s = Some r → (length r ≤ length s)%nat.
Proof.
  revert s. induction p as [|a p IH]; intros s H; simpl in H.
  - by simplify_eq.
  - destruct s as [|b s]; [done|]. destruct (a =? b)%char; [|done].
    apply IH in H. simpl. lia.
Qed.

Ltac shorter :=
  repeat match goal with
    | H : scanstring _ = Some _ |- _ =>
        apply (scanstring_length _ _ _ _ (le_n _)) in H
    | H : strip_prefix _ _ = Some _ |- _ => apply strip_prefix_length in H
    | H : scan_number _ = Some _ |- _ => apply scan_number_length in H
    | H : skip_ws ?x = _ |- _ =>
        pose proof (skip_ws_length x); rewrite H in *; clear H
    | |- context [skip_ws ?x] =>
        lazymatch goal with
        | _ : (length (skip_ws x) ≤ _)%nat |- _ => fail
        | _ => pose proof (skip_ws_length x)
        end
    | H : context [skip_ws ?x] |- _ =>
        lazymatch goal with
        | _ : (length (skip_ws x) ≤ _)%nat |- _ => fail
        | _ => pose proof (skip_ws_length x)
        end
    end.

Lemma scan_once_body_consumes elements members :
  consumes elements → consumes members →
  consumes (scan_once_body elements members).
Proof.
  intros He Hm s v r H. destruct s as [|c s]; [done|].
  unfold scan_once_body in H.
  repeat (case_match; simplify_eq; simpl in *; try lia);
    repeat match goal with
      | H : elements _ = Some _ |- _ => apply He in H
      | H : members _ = Some _ |- _ => apply Hm in H
      end; shorter; simpl in *; lia.
Qed.

Lemma scan_elements_body_consumes value elements :
  consumes value → consumes elements →
  consumes (scan_elements_body value elements).
Proof.
  intros Hv He s vs r H. unfold scan_elements_body in H.
  repeat (case_match; simplify_eq; simpl in *; try lia);
    repeat match goal with
      | H : value _ = Some _ |- _ => apply Hv in H
      | H : elements _ = Some _ |- _ => apply He in H
      end; shorter; simpl in *; lia.
Qed.

Lemma scan_members_body_consumes value members :
  consumes value → consumes members →
  consumes (scan_members_body value members).
Proof.
  intros Hv Hm s kvs r H. destruct s as [|q s]; [done|].
  unfold scan_members_body in H.
  repeat (case_match; simplify_eq; simpl in *; try lia);
    repeat match goal with
      | H : value _ = Some _ |- _ => apply Hv in H
      | H : members _ = Some _ |- _ => apply Hm in H
      end; shorter; simpl in *; lia.
Qed.

Lemma scan_consumes (fuel : nat) :
  consumes (scan_once fuel) ∧ consumes (scan_elements fuel) ∧
  consumes (scan_members fuel).
Proof.
  induction fuel as [|fuel (IHv & IHe & IHm)]; [by repeat split|].
  split; [|split]; simpl.
  - by apply scan_once_body_consumes.
  - by apply scan_elements_body_consumes.
  - by apply scan_members_body_consumes.
Qed.

Lemma scan_once_body_ext elements elements' members members' (s : text) :
  (∀ x, (length x < length s)%nat → elements x = elements' x) →
  (∀ x, (length x < length s)%nat → members x = members' x) →
  scan_once_body elements members s = scan_once_body elements' members' s.
Proof.
  intros He Hm. destruct s as [|c s]; [done|]. unfold scan_once_body.
  destruct (skip_ws s) as [|c1 r1] eqn:Hs; [done|].
  pose proof (skip_ws_length s) as Hlen. rewrite Hs in Hlen. simpl in Hlen.
  rewrite He, Hm by (simpl; lia). reflexivity.
Qed.

Lemma scan_elements_body_ext value value' elements elements' (s : text) :
  value s = value' s →
  consumes value →
  (∀ x, (length x < length s)%nat → elements x = elements' x) →
  scan_elements_body value elements s = scan_elements_body value' elements' s.
Proof.
  intros Hv Hc He. unfold scan_elements_body. rewrite <- Hv.
  destruct (value s) as [[v r]|] eqn:Hs; [|done]. apply Hc in Hs.
  destruct (skip_ws r) as [|c r1] eqn:Hr; [done|].
  pose proof (skip_ws_length r) as Hlen. rewrite Hr in Hlen. simpl in Hlen.
  pose proof (skip_ws_length r1).
  rewrite He by lia. reflexivity.
Qed.

Lemma scan_members_body_ext value value' members members' (s : text) :
  (∀ x, (length x < length s)%nat → value x = value' x) →
  consumes value →
  (∀ x, (length x < length s)%nat → members x = members' x) →
  scan_members_body value members s = scan_members_body value' members' s.
Proof.
  intros Hv Hc Hm. destruct s as [|q s]; [done|]. unfold scan_members_body.
  destruct (negb (q =? quote)%char); [done|].
  destruct (scanstring s) as [[k r1]|] eqn:Hk; [|done].
  apply (scanstring_length _ _ _ _ (le_n _)) in Hk.
  destruct (skip_ws r1) as [|c r2] eqn:Hr1; [done|].
  pose proof (skip_ws_length r1) as Hlen1. rewrite Hr1 in Hlen1.
  simpl in Hlen1. pose proof (skip_ws_length r2).
  destruct (negb (c =? ":")%char); [done|].
  rewrite <- Hv by (simpl; lia).
  destruct (value (skip_ws r2)) as [[v r3]|] eqn:Hr2; [|done].
  apply Hc in Hr2.
  destruct (skip_ws r3) as [|d r4] eqn:Hr3; [done|].
  pose proof (skip_ws_length r3) as Hlen3. rewrite Hr3 in Hlen3.
  simpl in Hlen3. pose proof (skip_ws_length r4).
  rewrite Hm by (simpl; lia). reflexivity.
Qed.

Lemma scan_fuel_step (fuel : nat) :
  (∀ s, (2 * length s + 1 ≤ fuel)%nat →
     scan_once (S fuel) s = scan_once fuel s) ∧
  (∀ s, (2 * length s + 2 ≤ fuel)%nat →
     scan_elements (S fuel) s = scan_elements fuel s) ∧
  (∀ s, (2 * length s + 2 ≤ fuel)%nat →
     scan_members (S fuel) s = scan_members fuel s).
Proof.
  induction fuel as [|fuel (IHv & IHe & IHm)].
  - repeat split; intros; lia.
  - destruct (scan_consumes (S fuel)) as (Cv & _ & _).
    split; [|split]; intros s Hs;
      [change (scan_once_body (scan_elements (S fuel)) (scan_members (S fuel)) s
               = scan_once_body (scan_elements fuel) (scan_members fuel) s);
       apply scan_once_body_ext
      |change (scan_elements_body (scan_once (S fuel)) (scan_elements (S fuel)) s
               = scan_elements_body (scan_once fuel) (scan_elements fuel) s);
       apply scan_elements_body_ext
      |change (scan_members_body (scan_once (S fuel)) (scan_members (S fuel)) s
               = scan_members_body (scan_once fuel) (scan_members fuel) s);
       apply scan_members_body_ext];
      try done; intros; (apply IHv || apply IHe || apply IHm); lia.
Qed.

(** More fuel than twice the length of the text changes nothing. *)
Lemma scan_once_fuel (s : text) (fuel : nat) :
  (2 * length s + 1 ≤ fuel)%nat →
  scan_once fuel s = scan_once (2 * length s + 1) s.
Proof.
  induction 1 as [|fuel Hle IH]; [done|].
  rewrite <- IH. by apply scan_fuel_step.
Qed.

Lemma json_loads_fuel (s : string) (fuel : nat) :
  (2 * length (chars s) + 2 ≤ fuel)%nat →
  json_loads s
  = match scan_once fuel (skip_ws (chars s)) with
    | Some (v, rest) =>
        match skip_ws rest with
        | [] => Ok v
        | _ :: _ => Raise ValueError
        end
    | None => Raise ValueError
    end.
Proof.
  intros Hfuel. unfold json_loads.
  pose proof (skip_ws_length (chars s)).
  rewrite (scan_once_fuel _ fuel), (scan_once_fuel _ (2 * _ + 2)) by lia.
  reflexivity.
Qed.

(** * The manager *)

Section ManagerFacts.
Context {B : Type}.
Variable respond : es_call → B → result pyval * B.
Variable iteritems : dict → list (string * pyval).
Variable py_repr : pyval → string.

(** [iteritems] visits every item of the dictionary once, in some order. *)
Hypothesis iteritems_perm : ∀ m : dict, iteritems m ≡ₚ map_to_list m.

Lemma bind_ok {A C} (c : M B A) (f : A → M B C) (w w1 : world B) (a : A) :
  c w = (Ok a, w1) → (c ≫= f) w = f a w1.
Proof. intros H. unfold mbind, M_bind. by rewrite H. Qed.

Lemma bind_raise {A C} (c : M B A) (f : A → M B C) (w w1 : world B) (e : exn) :
  c w = (Raise e, w1) → (c ≫= f) w = (Raise e, w1).
Proof. intros H. unfold mbind, M_bind. by rewrite H. Qed.

Lemma bind_lift {A C} (r : result A) (f : A → M B C) (w : world B) :
  (lift r ≫= f) w = match r with Ok a => f a w | Raise e => (Raise e, w) end.
Proof. by destruct r. Qed.

Lemma subscript_dict (m : dict) (key : string) :
  subscript (PDict m) key
  = match m !! key with Some v => Ok v | None => Raise (KeyError key) end.
Proof. reflexivity. Qed.

(** ** connect_es *)

Lemma connect_es_ok (w : world B) : (connect_es w).1 = Ok ().
Proof. unfold connect_es. by destruct (es (self w)). Qed.

Lemma connect_es_connected (w : world B) :
  is_Some (es (self (connect_es w).2)).
Proof.
  unfold connect_es. destruct (es (self w)) eqn:E; simpl; rewrite ?E; eauto.
Qed.

Lemma connect_es_backend (w : world B) :
  backend (connect_es w).2 = backend w ∧
  requests (connect_es w).2 = requests w ∧
  files (connect_es w).2 = files w ∧
  writable (connect_es w).2 = writable w ∧
  index (self (connect_es w).2) = index (self w) ∧
  max_hits (self (connect_es w).2) = max_hits (self w).
Proof. unfold connect_es. by destruct (es (self w)). Qed.

(** C9. [connect_es] creates the client only when the manager has none;
    with a client in place it returns at once and changes nothing, so a
    second call is a no-op. *)
Theorem connect_es_idempotent (w : world B) :
  (is_Some (es (self w)) → connect_es w = (Ok (), w)) ∧
  (es (self w) = None →
     connect_es w
     = (Ok (), set_es w (Some {| hosts := [host (self w)] |}))) ∧
  connect_es (connect_es w).2 = (Ok (), (connect_es w).2).
Proof.
  split; [|split].
  - intros [h Hh]. unfold connect_es. by rewrite Hh.
  - intros Hn. unfold connect_es. by rewrite Hn.
  - pose proof (connect_es_connected w) as [h Hh].
    unfold connect_es at 1. by rewrite Hh.
Qed.

(** ** put_object and del_object *)

Lemma es_request_connected (c : es_call) (w : world B) :
  es_request respond c (connect_es w).2
  = ((respond c (backend w)).1,
     {| self := self (connect_es w).2;
        backend := (respond c (backend w)).2;
        requests := c :: requests w;
        files := files w; writable := writable w |}).
Proof.
  unfold es_request.
  destruct (connect_es_connected w) as [h ->].
  destruct (connect_es_backend w) as (-> & -> & -> & -> & _).
  by destruct (respond c (backend w)).
Qed.

Lemma bind_connect {C} (f : () → M B C) (w : world B) :
  (connect_es ≫= f) w = f () (connect_es w).2.
Proof.
  unfold mbind, M_bind. pose proof (connect_es_ok w) as Hok.
  by destruct (connect_es w) as [[[]|e] w1].
Qed.

(** C4, as the code has it.  [put_object] checks [_index], [_id], [_type]
    and [_source] in this order.  The first of them that is absent raises
    [KeyError] with its key; the first that is [None] or the empty string
    raises [Exception("Invalid Object, no ...")] with its name.  In both
    cases nothing has been sent to the backend and the manager is
    unchanged. *)
Theorem put_object_rejects (w : world B) (m : dict)
    (pre post : list (string * string)) (key label : string) :
  required = pre ++ (key, label) :: post →
  Forall (λ kl, ∃ v, m !! kl.1 = Some v ∧ missing v = false) pre →
  (m !! key = None →
     put_object respond (PDict m) w = (Raise (KeyError key), w)) ∧
  (∀ v, m !! key = Some v → missing v = true →
     put_object respond (PDict m) w
     = (Raise (Exception ("Invalid Object, no " +:+ label)), w)).
Proof.
  intros Hreq Hpre. unfold required in Hreq.
  repeat (destruct pre as [|[? ?] pre]; simpl in Hreq;
          [injection Hreq as <- <- <- |
           injection Hreq as <- <- Hreq;
           apply Forall_cons in Hpre as [(? & ? & ?) Hpre];
           cbn [fst] in *]);
    try (by destruct pre);
    (split; [intros Hkey | intros v Hkey Hv]);
    unfold put_object; rewrite ?bind_lift, ?subscript_dict;
    repeat match goal with
           | H : m !! _ = _ |- _ => rewrite H; clear H
           | H : missing _ = _ |- _ => rewrite H; clear H
           | |- context [lift _ ≫= _] => rewrite bind_lift
           end; reflexivity.
Qed.



(** ** get_objects *)

Lemma get_objects_run (w : world B) (field val : string) :
  get_objects respond iteritems field val w
  = let c := Search (index (self w)) (query_of (max_hits (self w)) field val) in
    ((respond c (backend w)).1 ≫= (λ res,
       subscript res "hits" ≫= (λ h,
       subscript h "hits" ≫= (λ hh,
       py_iter iteritems hh ≫= (λ docs,
       collect_hits (index (self w)) docs ∅)))),
     {| self := self (connect_es w).2;
        backend := (respond c (backend w)).2;
        requests := c :: requests w;
        files := files w; writable := writable w |}).
Proof.
  unfold get_objects. rewrite bind_connect. unfold mbind at 1, M_bind at 1.
  rewrite es_request_connected.
  by destruct (respond _ (backend w)) as [[res|e] b].
Qed.

Lemma collect_hits_spec (idx : string) (hits : list pyval) (acc : dict) :
  Forall well_formed_hit hits →
  ∃ objects,
    collect_hits idx hits acc = Ok objects ∧
    (∀ k v, objects !! k = Some v →
       acc !! k = Some v ∨
       ∃ h t s, h ∈ hits ∧ subscript h "_id" = Ok (PStr k) ∧
         subscript h "_type" = Ok t ∧ subscript h "_source" = Ok s ∧
         v = normalized idx k t s) ∧
    (∀ k, is_Some (acc !! k) → is_Some (objects !! k)) ∧
    (∀ h, h ∈ hits →
       ∃ k, subscript h "_id" = Ok (PStr k) ∧ is_Some (objects !! k)).
Proof.
  intros Hwf. revert acc.
  induction Hwf as [|h hits (k & t & s & Hk & Ht & Hs) _ IH]; intros acc.
  - exists acc. repeat split; auto. intros h Hh. by apply elem_of_nil in Hh.
  - destruct (IH (<[k := normalized idx k t s]> acc))
      as (objects & Hrun & Hfrom & Hkeep & Hall).
    exists objects. split; [|split; [|split]].
    + simpl. rewrite Hk. simpl. rewrite Ht. simpl. rewrite Hs. exact Hrun.
    + intros k' v Hv. destruct (Hfrom k' v Hv) as [Hacc|Hhit].
      * destruct (decide (k = k')) as [<-|Hne].
        -- rewrite lookup_insert_eq in Hacc. injection Hacc as <-.
           right. exists h, t, s. repeat split; auto. apply list_elem_of_here.
        -- rewrite lookup_insert_ne in Hacc by done. by left.
      * destruct Hhit as (h' & t' & s' & Hin & Hrest).
        right. exists h', t', s'. split; [by apply list_elem_of_further | done].
    + intros k' Hk'. apply Hkeep.
      destruct (decide (k = k')) as [<-|Hne].
      * rewrite lookup_insert_eq. eauto.
      * by rewrite lookup_insert_ne.
    + intros h' Hin. apply elem_of_cons in Hin as [->|Hin]; [|by apply Hall].
      exists k. split; [done|]. apply Hkeep. rewrite lookup_insert_eq. eauto.
Qed.

(** C8, as the code has it.  From a search result whose hits carry a string
    [_id], a [_type] and a [_source], [get_objects] returns a dictionary in
    which every key is the [_id] of its value, every value has the
    manager's index as [_index] and the [_type], [_id] and [_source] of a
    hit, and every hit is represented.  The values all have type [t] when
    the hits all have type [t]: the type is copied, not checked. *)
Theorem get_objects_normalizes (w : world B) (field val : string)
    (res : pyval) (b : B) (hits : list pyval) :
  respond (Search (index (self w)) (query_of (max_hits (self w)) field val))
    (backend w) = (Ok res, b) →
  subscript res "hits" ≫= (λ h, subscript h "hits") = Ok (PList hits) →
  Forall well_formed_hit hits →
  ∃ objects w',
    get_objects respond iteritems field val w = (Ok objects, w') ∧
    (∀ k v, objects !! k = Some v →
       ∃ h t s, h ∈ hits ∧ subscript h "_id" = Ok (PStr k) ∧
         subscript h "_type" = Ok t ∧ subscript h "_source" = Ok s ∧
         v = normalized (index (self w)) k t s) ∧
    (∀ h, h ∈ hits →
       ∃ k, subscript h "_id" = Ok (PStr k) ∧ is_Some (objects !! k)) ∧
    (∀ t, Forall (λ h, subscript h "_type" = Ok (PStr t)) hits →
       ∀ k v, objects !! k = Some v → subscript v "_type" = Ok (PStr t)).
Proof.
  intros Hresp Hhits Hwf.
  destruct (collect_hits_spec (index (self w)) hits ∅ Hwf)
    as (objects & Hrun & Hfrom & _ & Hall).
  assert (∀ k v, objects !! k = Some v →
            ∃ h t s, h ∈ hits ∧ subscript h "_id" = Ok (PStr k) ∧
              subscript h "_type" = Ok t ∧ subscript h "_source" = Ok s ∧
              v = normalized (index (self w)) k t s) as Hfrom'.
  { intros k v Hv. destruct (Hfrom k v Hv) as [Hacc|Hhit]; [|done].
    by rewrite lookup_empty in Hacc. }
  exists objects. eexists. split; [|split; [|split]]; [|done|done|].
  - rewrite get_objects_run. cbv zeta. rewrite Hresp. simpl.
    destruct (subscript res "hits") as [h|e]; [|done]. simpl in *.
    rewrite Hhits. simpl. rewrite Hrun. reflexivity.
  - intros t Hty k v Hv.
    destruct (Hfrom' k v Hv) as (h & t' & s & Hin & _ & Ht & _ & ->).
    rewrite Forall_forall in Hty. rewrite (Hty h Hin) in Ht.
    injection Ht as <-. reflexivity.
Qed.


(** ** get_dashboard_full *)

Lemma iteritems_NoDup (m : dict) : NoDup (iteritems m).*1.
Proof. rewrite iteritems_perm. apply NoDup_fst_map_to_list. Qed.

Lemma iteritems_elem (m : dict) (k : string) (v : pyval) :
  (k, v) ∈ iteritems m ↔ m !! k = Some v.
Proof. rewrite iteritems_perm. apply elem_of_map_to_list. Qed.

Lemma iteritems_to_map (m : dict) : list_to_map (iteritems m) = m.
Proof.
  etrans; [|apply (list_to_map_to_list m)].
  apply list_to_map_proper; [apply iteritems_NoDup | apply iteritems_perm].
Qed.

Lemma get_dashboard_full_run (w w1 w2 w3 : world B) (ds vs ss : dict)
    (dboard : string) :
  get_objects respond iteritems "type" "dashboard" w = (Ok ds, w1) →
  get_objects respond iteritems "type" "visualization" w1 = (Ok vs, w2) →
  get_objects respond iteritems "type" "search" w2 = (Ok ss, w3) →
  get_dashboard_full respond iteritems dboard w
  = (find_dashboard iteritems ds vs ss dboard (iteritems ds), w3).
Proof.
  intros H1 H2 H3. unfold get_dashboard_full.
  rewrite (bind_ok _ _ _ _ _ H1), (bind_ok _ _ _ _ _ H2),
    (bind_ok _ _ _ _ _ H3).
  reflexivity.
Qed.

Lemma find_dashboard_absent (ds vs ss : dict) (dboard : string)
    (items : list (string * pyval)) :
  dboard ∉ items.*1 →
  find_dashboard iteritems ds vs ss dboard items = Ok None.
Proof.
  induction items as [|[name val] items IH]; intros Hin; [done|].
  simpl in *. apply not_elem_of_cons in Hin as [Hne Hin].
  rewrite bool_decide_eq_false_2 by done. by apply IH.
Qed.

Lemma find_dashboard_present (ds vs ss : dict) (dboard : string) (val : pyval)
    (items : list (string * pyval)) :
  NoDup items.*1 →
  (dboard, val) ∈ items →
  find_dashboard iteritems ds vs ss dboard items
  = export_dashboard iteritems ds vs ss dboard val.
Proof.
  induction items as [|[name v] items IH]; intros Hnd Hin.
  - by apply elem_of_nil in Hin.
  - simpl in *. apply NoDup_cons in Hnd as [Hfresh Hnd].
    apply elem_of_cons in Hin as [Heq|Hin].
    + injection Heq as <- <-. by rewrite bool_decide_eq_true_2.
    + rewrite bool_decide_eq_false_2; [by apply IH|].
      intros ->. apply Hfresh.
      apply list_elem_of_fmap. by exists (dboard, val).
Qed.

(** C1, as the code has it.  When no fetched dashboard has the id asked
    for, the loop of [get_dashboard_full] ends without reaching a
    [return]: the caller receives [None], not an empty dictionary. *)
Theorem get_dashboard_full_absent (w w1 w2 w3 : world B) (ds vs ss : dict)
    (dboard : string) :
  get_objects respond iteritems "type" "dashboard" w = (Ok ds, w1) →
  get_objects respond iteritems "type" "visualization" w1 = (Ok vs, w2) →
  get_objects respond iteritems "type" "search" w2 = (Ok ss, w3) →
  ds !! dboard = None →
  get_dashboard_full respond iteritems dboard w = (Ok None, w3).
Proof.
  intros H1 H2 H3 Habs.
  rewrite (get_dashboard_full_run _ _ _ _ _ _ _ _ H1 H2 H3).
  rewrite find_dashboard_absent; [done|].
  intros Hin. apply list_elem_of_fmap in Hin as ([k v] & -> & Hin).
  apply iteritems_elem in Hin. simpl in Habs. congruence.
Qed.

Lemma export_dashboard_panels (ds vs ss : dict) (name : string)
    (val src : pyval) (pj : string) :
  ds !! name = Some val →
  subscript val "_source" = Ok src →
  subscript src "panelsJSON" = Ok (PStr pj) →
  export_dashboard iteritems ds vs ss name val
  = json_loads pj ≫= (λ panels,
      py_iter iteritems panels ≫= (λ l,
        resolve_panels iteritems vs ss l {[ name := val ]})).
Proof.
  intros Hval Hsrc Hpj. unfold export_dashboard.
  rewrite subscript_dict, Hval. simpl. rewrite Hsrc. simpl.
  rewrite Hpj. reflexivity.
Qed.



Lemma has_id_true (p : string) (panel : pyval) :
  has_id p panel = true ↔ subscript panel "id" = Ok (PStr p).
Proof.
  unfold has_id. destruct (subscript panel "id") as [[| | |s| |]|e]; simpl;
    try (split; [discriminate | congruence]).
  rewrite bool_decide_eq_true. split; [by intros -> | congruence].
Qed.

Lemma match_panel_id (items : list (string * pyval)) (panel : pyval)
    (p : string) (objects : dict) :
  NoDup items.*1 →
  subscript panel "id" = Ok (PStr p) →
  match_panel items panel objects = Ok (overlay (list_to_map items) p objects).
Proof.
  intros Hnd Hid. revert objects.
  induction items as [|[k v] items IH]; intros objects; [done|].
  simpl in Hnd. apply NoDup_cons in Hnd as [Hfresh Hnd].
  simpl. rewrite Hid. simpl. rewrite (IH Hnd). f_equal. unfold overlay.
  destruct (decide (k = p)) as [->|Hne].
  - rewrite bool_decide_eq_true_2 by done.
    rewrite lookup_insert_eq.
    by rewrite (not_elem_of_list_to_map_1 _ _ Hfresh).
  - rewrite bool_decide_eq_false_2 by done.
    by rewrite lookup_insert_ne.
Qed.

Lemma panel_step (vs ss : dict) (panel : pyval) (p : string) (objects : dict) :
  subscript panel "id" = Ok (PStr p) →
  match_panel (iteritems vs) panel objects
    ≫= match_panel (iteritems ss) panel
  = Ok (overlay ss p (overlay vs p objects)).
Proof.
  intros Hid.
  rewrite (match_panel_id _ _ p) by (apply iteritems_NoDup || done).
  simpl.
  rewrite (match_panel_id _ _ p) by (apply iteritems_NoDup || done).
  by rewrite !iteritems_to_map.
Qed.

Lemma resolve_panels_two (vs ss : dict) (v1 s1 : string) (V1 S1 : pyval)
    (base : dict) (panels : list pyval) (bv bs : bool) :
  vs !! v1 = Some V1 → ss !! v1 = None → ss !! s1 = Some S1 →
  Forall (λ p, has_id v1 p = true ∨ has_id s1 p = true) panels →
  resolve_panels iteritems vs ss panels
    (add_if bs s1 S1 (add_if bv v1 V1 base))
  = Ok (Some (add_if (bs || mentions s1 panels) s1 S1
                (add_if (bv || mentions v1 panels) v1 V1 base))).
Proof.
  intros HV Hnone HS Hall. revert bv bs.
  assert (v1 ≠ s1) as Hne by congruence.
  induction Hall as [|panel panels Hid _ IH]; intros bv bs.
  - simpl. by rewrite !orb_false_r.
  - simpl. destruct Hid as [Hid|Hid].
    + assert (has_id s1 panel = false) as Hs.
      { apply has_id_true in Hid. apply not_true_is_false. intros Hs.
        apply has_id_true in Hs. congruence. }
      rewrite Hid, Hs. apply has_id_true in Hid.
      rewrite (panel_step _ _ _ v1) by done.
      unfold overlay. rewrite HV, Hnone.
      replace (<[v1:=V1]> (add_if bs s1 S1 (add_if bv v1 V1 base)))
        with (add_if bs s1 S1 (add_if true v1 V1 base)).
      * rewrite IH. by rewrite orb_true_r.
      * destruct bs, bv; simpl; apply map_eq; intros k;
          rewrite !lookup_insert; repeat case_decide; congruence.
    + assert (has_id v1 panel = false) as Hv.
      { apply has_id_true in Hid. apply not_true_is_false. intros Hv.
        apply has_id_true in Hv. congruence. }
      rewrite Hid, Hv. apply has_id_true in Hid.
      rewrite (panel_step _ _ _ s1) by done.
      unfold overlay at 1. rewrite HS.
      replace (<[s1:=S1]> (overlay vs s1 (add_if bs s1 S1 (add_if bv v1 V1 base))))
        with (add_if true s1 S1 (add_if bv v1 V1 base)).
      * rewrite IH. by rewrite orb_true_r.
      * unfold overlay. destruct (vs !! s1), bs; simpl;
          rewrite ?insert_insert_eq; done.
Qed.

(** C3, as the code has it.  The result is keyed by id alone, so the three
    documents are all there when their ids differ and no search shares the
    id of the visualization: then [get_dashboard_full] returns exactly the
    dashboard, the visualization and the search, each under its id. *)
Theorem get_dashboard_full_closure (w w1 w2 w3 : world B) (ds vs ss : dict)
    (x v1 s1 pj : string) (X V1 S1 src : pyval) (panels : list pyval) :
  get_objects respond iteritems "type" "dashboard" w = (Ok ds, w1) →
  get_objects respond iteritems "type" "visualization" w1 = (Ok vs, w2) →
  get_objects respond iteritems "type" "search" w2 = (Ok ss, w3) →
  ds !! x = Some X →
  subscript X "_source" = Ok src →
  subscript src "panelsJSON" = Ok (PStr pj) →
  json_loads pj = Ok (PList panels) →
  Forall (λ p, has_id v1 p = true ∨ has_id s1 p = true) panels →
  mentions v1 panels = true →
  mentions s1 panels = true →
  vs !! v1 = Some V1 →
  ss !! s1 = Some S1 →
  x ≠ v1 → x ≠ s1 → ss !! v1 = None →
  get_dashboard_full respond iteritems x w
  = (Ok (Some {[ s1 := S1; v1 := V1; x := X ]}), w3) ∧
  size ({[ s1 := S1; v1 := V1; x := X ]} : dict) = 3%nat.
Proof.
  intros H1 H2 H3 HX Hsrc Hpj Hload Hall Hmv Hms HV HS Hxv Hxs Hnone.
  assert (v1 ≠ s1) as Hne by congruence.
  split.
  - rewrite (get_dashboard_full_run _ _ _ _ _ _ _ _ H1 H2 H3).
    rewrite (find_dashboard_present _ _ _ _ X)
      by (apply iteritems_NoDup || by apply iteritems_elem).
    rewrite (export_dashboard_panels _ _ _ _ _ _ _ HX Hsrc Hpj).
    rewrite Hload. simpl.
    pose proof (resolve_panels_two vs ss v1 s1 V1 S1 {[ x := X ]} panels
                  false false HV Hnone HS Hall) as Hres.
    simpl in Hres. rewrite Hms, Hmv in Hres. by rewrite Hres.
  - rewrite !map_size_insert_None, map_size_singleton; [done|..].
    + by rewrite lookup_singleton_ne.
    + rewrite lookup_insert_ne by done. by rewrite lookup_singleton_ne.
Qed.


Lemma iteritems_nil (m : dict) : iteritems m = [] ↔ m = ∅.
Proof.
  rewrite <- (map_to_list_empty_iff m). split; intros H.
  - apply Permutation_nil. by rewrite <- H, iteritems_perm.
  - apply Permutation_nil. by rewrite iteritems_perm, H.
Qed.

Lemma match_panel_total (items : list (string * pyval)) (panel v : pyval)
    (objects : dict) :
  subscript panel "id" = Ok v →
  ∃ objects', match_panel items panel objects = Ok objects'.
Proof.
  intros Hid. revert objects.
  induction items as [|[k x] items IH]; intros objects; [by eexists|].
  simpl. rewrite Hid. simpl. apply IH.
Qed.

Lemma match_panel_no_id (items : list (string * pyval)) (panel : pyval)
    (e : exn) (objects : dict) :
  items ≠ [] →
  subscript panel "id" = Raise e →
  match_panel items panel objects = Raise e.
Proof.
  intros Hne Hid. destruct items as [|[k x] items]; [done|].
  simpl. by rewrite Hid.
Qed.

(** With at least one visualization or search fetched, a panel without
    [id] among panels that are all objects empties the result, whatever the
    other panels are. *)
Lemma resolve_panels_missing_id (vs ss : dict) (panels : list pyval)
    (objects : dict) :
  vs ≠ ∅ ∨ ss ≠ ∅ →
  Forall (λ p, ∃ m : dict, p = PDict m) panels →
  Exists (λ p, subscript p "id" = Raise (KeyError "id")) panels →
  resolve_panels iteritems vs ss panels objects = Ok (Some ∅).
Proof.
  intros Hdeps Hall. revert objects.
  induction Hall as [|panel panels [m ->] _ IH]; intros objects Hex.
  - by apply Exists_nil in Hex.
  - simpl. destruct (m !! "id") as [v|] eqn:Hid.
    + assert (subscript (PDict m) "id" = Ok v) as Hsub
        by by rewrite subscript_dict, Hid.
      destruct (match_panel_total (iteritems vs) _ _ objects Hsub)
        as [o1 ->].
      simpl.
      destruct (match_panel_total (iteritems ss) _ _ o1 Hsub) as [o2 ->].
      apply IH. apply Exists_cons in Hex as [Hex|Hex]; [|done].
      congruence.
    + assert (subscript (PDict m) "id" = Raise (KeyError "id")) as Hsub
        by by rewrite subscript_dict, Hid.
      destruct (iteritems vs) as [|kv items] eqn:Hvs.
      * simpl. rewrite (match_panel_no_id _ _ (KeyError "id")); [done| |done].
        intros Hss. apply iteritems_nil in Hvs, Hss. by destruct Hdeps.
      * by rewrite (match_panel_no_id (kv :: items) _ (KeyError "id")).
Qed.

Lemma get_dashboard_full_missing_id (w w1 w2 w3 : world B) (ds vs ss : dict)
    (x pj : string) (X src : pyval) (panels : list pyval) :
  get_objects respond iteritems "type" "dashboard" w = (Ok ds, w1) →
  get_objects respond iteritems "type" "visualization" w1 = (Ok vs, w2) →
  get_objects respond iteritems "type" "search" w2 = (Ok ss, w3) →
  ds !! x = Some X →
  subscript X "_source" = Ok src →
  subscript src "panelsJSON" = Ok (PStr pj) →
  json_loads pj = Ok (PList panels) →
  vs ≠ ∅ ∨ ss ≠ ∅ →
  Forall (λ p, ∃ m : dict, p = PDict m) panels →
  Exists (λ p, subscript p "id" = Raise (KeyError "id")) panels →
  get_dashboard_full respond iteritems x w = (Ok (Some ∅), w3).
Proof.
  intros H1 H2 H3 HX Hsrc Hpj Hload Hdeps Hall Hex.
  rewrite (get_dashboard_full_run _ _ _ _ _ _ _ _ H1 H2 H3).
  rewrite (find_dashboard_present _ _ _ _ X)
    by (apply iteritems_NoDup || by apply iteritems_elem).
  rewrite (export_dashboard_panels _ _ _ _ _ _ _ HX Hsrc Hpj).
  rewrite Hload. simpl. by rewrite resolve_panels_missing_id.
Qed.

(** ** Files *)




(** * Further properties of the manager *)

Lemma es_request_some (c : es_call) (w : world B) :
  is_Some (es (self w)) →
  es_request respond c w
  = ((respond c (backend w)).1,
     {| self := self w; backend := (respond c (backend w)).2;
        requests := c :: requests w;
        files := files w; writable := writable w |}).
Proof.
  intros [h Hh]. unfold es_request. rewrite Hh.
  by destruct (respond c (backend w)).
Qed.

(** X1. A Document whose four fields are there and neither [None] nor
    empty is sent in two requests, the creation of its index and then the
    indexing itself.  A 400 answered to the creation is ignored; any other
    error of the creation ends the call before the Document is sent.  The
    answer to the indexing, error or not, is the outcome. *)
Theorem put_object_sends (w : world B) (m : dict) (i d t s : pyval) :
  m !! "_index" = Some i → m !! "_id" = Some d →
  m !! "_type" = Some t → m !! "_source" = Some s →
  missing i || missing d || missing t || missing s = false →
  (ignored 400 (respond (IndicesCreate i) (backend w)).1 = true →
     put_object respond (PDict m) w
     = ((respond (Index i d t s)
           (respond (IndicesCreate i) (backend w)).2).1,
        after_requests w
          (respond (Index i d t s)
             (respond (IndicesCreate i) (backend w)).2).2
          [Index i d t s; IndicesCreate i])) ∧
  (ignored 400 (respond (IndicesCreate i) (backend w)).1 = false →
     put_object respond (PDict m) w
     = ((respond (IndicesCreate i) (backend w)).1,
        after_requests w (respond (IndicesCreate i) (backend w)).2
          [IndicesCreate i])).
Proof.
  intros Hi Hd Ht Hs Hm.
  apply orb_false_elim in Hm as [Hm Hms].
  apply orb_false_elim in Hm as [Hm Hmt].
  apply orb_false_elim in Hm as [Hmi Hmd].
  assert (put_object respond (PDict m) w
          = (es_request_ignore respond 400 (IndicesCreate i)
               ≫= λ _, es_request respond (Index i d t s)) (connect_es w).2)
    as ->.
  { unfold put_object.
    rewrite bind_lift, subscript_dict, Hi, Hmi.
    rewrite bind_lift, subscript_dict, Hd, Hmd.
    rewrite bind_lift, subscript_dict, Ht, Hmt.
    rewrite bind_lift, subscript_dict, Hs, Hms.
    by rewrite bind_connect. }
  unfold mbind, M_bind, es_request_ignore. rewrite es_request_connected.
  unfold after_requests.
  destruct (respond (IndicesCreate i) (backend w)) as [[r|e] b]; simpl.
  - split; [intros _|done]. rewrite es_request_some; [done|].
    apply connect_es_connected.
  - destruct e as [| | | | | |st]; try (split; [done | by intros _]).
    case_bool_decide; (split; [intros Hst | intros Hst]); try done.
    rewrite es_request_some; [done|]. apply connect_es_connected.
Qed.

Lemma for_each_app {A} (f : A → M B pyval) (l1 l2 : list A) (w : world B) :
  for_each f (l1 ++ l2) w
  = match for_each f l1 w with
    | (Ok _, w1) => for_each f l2 w1
    | (Raise e, w1) => (Raise e, w1)
    end.
Proof.
  revert w. induction l1 as [|x l1 IH]; intros w; [done|].
  simpl. unfold mbind, M_bind.
  destruct (f x w) as [[r|e] w1]; [apply IH | done].
Qed.


Lemma put_pkg_list (l : list pyval) (w : world B) :
  put_pkg respond iteritems (PList l) w = for_each (put_object respond) l w.
Proof. unfold put_pkg. by rewrite bind_lift. Qed.

(** X2. [put_pkg] puts the Documents of the list in order and is not
    atomic: when one of them fails, those before it have been put, the
    error is the outcome, and those after it are never sent. *)
Theorem put_pkg_stops_at_failure (w w1 w2 : world B) (before after : list pyval)
    (obj : pyval) (e : exn) :
  put_pkg respond iteritems (PList before) w = (Ok (), w1) →
  put_object respond obj w1 = (Raise e, w2) →
  put_pkg respond iteritems (PList (before ++ obj :: after)) w = (Raise e, w2).
Proof.
  intros Hb Ho. rewrite put_pkg_list in *. rewrite for_each_app, Hb.
  simpl. unfold mbind, M_bind. by rewrite Ho.
Qed.

(** X3. Given a dictionary, such as a whole package object in the place
    of its [docs] list, [put_pkg] iterates over the keys and fails on the
    first with [TypeError], before any request. *)
Theorem put_pkg_of_dict (w : world B) (m : dict) :
  m ≠ ∅ →
  put_pkg respond iteritems (PDict m) w = (Raise TypeError, w).
Proof.
  intros Hm. unfold put_pkg. rewrite bind_lift. simpl.
  destruct (iteritems m) as [|[k v] items] eqn:Hit.
  - by apply iteritems_nil in Hit.
  - reflexivity.
Qed.




(** X5. [del_object] reads [_index], [_id] and [_type] and nothing else.
    When none of them is [None] or empty it sends one deletion; it
    returns [None] when the backend accepts, whatever the answer holds,
    and the error when the backend refuses. *)
Theorem del_object_sends (w : world B) (m : dict) (i d t : pyval) :
  m !! "_index" = Some i → m !! "_id" = Some d → m !! "_type" = Some t →
  missing i || missing d || missing t = false →
  del_object respond (PDict m) w
  = (match (respond (Delete i d t) (backend w)).1 with
     | Ok _ => Ok PNone
     | Raise e => Raise e
     end,
     after_requests w (respond (Delete i d t) (backend w)).2 [Delete i d t]).
Proof.
  intros Hi Hd Ht Hm.
  apply orb_false_elim in Hm as [Hm Hmt].
  apply orb_false_elim in Hm as [Hmi Hmd].
  unfold del_object.
  rewrite bind_lift, subscript_dict, Hi, Hmi.
  rewrite bind_lift, subscript_dict, Hd, Hmd.
  rewrite bind_lift, subscript_dict, Ht, Hmt.
  rewrite bind_connect. unfold mbind, M_bind.
  rewrite es_request_connected. unfold after_requests.
  by destruct (respond (Delete i d t) (backend w)) as [[r|e] b].
Qed.




(** ** Further properties of the files *)

(** X7. [write_object_to_file] writes one file or none.  When it
    succeeds, the file it names holds the Document's text, every other
    file is as before and neither the manager nor the backend has been
    used; when it fails, nothing has changed at all. *)
Theorem write_object_to_file_effect (w : world B) (obj : pyval) (path : string) :
  match write_object_to_file py_repr obj path w with
  | (Ok fn, w1) =>
      writable w fn = true ∧
      files w1 !! fn = Some (json_dumps obj +:+ String newline EmptyString) ∧
      (∀ other, other ≠ fn → files w1 !! other = files w !! other) ∧
      self w1 = self w ∧ backend w1 = backend w ∧ requests w1 = requests w
  | (Raise e, w1) => w1 = w
  end.
Proof.
  unfold write_object_to_file. rewrite bind_lift.
  destruct (subscript obj "_type") as [t|e]; [|done].
  rewrite bind_lift. destruct (subscript obj "_id") as [k|e]; [|done].
  unfold mbind, M_bind, file_write.
  destruct (writable w _) eqn:Hw; [|done]. simpl.
  repeat split; [done|by rewrite lookup_insert_eq|].
  intros other Hne. by rewrite lookup_insert_ne.
Qed.

Lemma write_named (w : world B) (obj : pyval) (path : string) :
  named obj →
  writable w (object_file path obj) = true →
  write_object_to_file py_repr obj path w
  = (Ok (object_file path obj),
     set_file w (object_file path obj)
       (json_dumps obj +:+ String newline EmptyString)).
Proof.
  intros (t & k & Ht & Hk) Hw. unfold object_file in *.
  unfold write_object_to_file. rewrite bind_lift, Ht, bind_lift, Hk in *.
  simpl format_s. unfold mbind, M_bind, file_write. by rewrite Hw.
Qed.

Lemma read_written (w : world B) (fn : string) (obj : pyval) :
  files w !! fn = Some (json_dumps obj +:+ String newline EmptyString) →
  read_object_from_file fn w = (Ok obj, w).
Proof.
  intros Hf. unfold read_object_from_file, mbind, M_bind, file_read.
  rewrite Hf. unfold lift. by rewrite json_loads_dumps_line.
Qed.



(** X9. The file of a single Document is not a package:
    [read_pkg_from_file] on the file that [write_object_to_file] wrote for
    a Document without a [docs] key fails with [KeyError] on [docs]. *)
Theorem read_pkg_of_object_file (w : world B) (m : dict) (path : string) :
  named (PDict m) →
  m !! "docs" = None →
  writable w (object_file path (PDict m)) = true →
  ∃ w1,
    write_object_to_file py_repr (PDict m) path w
    = (Ok (object_file path (PDict m)), w1) ∧
    read_pkg_from_file (object_file path (PDict m)) w1
    = (Raise (KeyError "docs"), w1).
Proof.
  intros Hn Hdocs Hw. eexists. split; [by apply write_named|].
  unfold read_pkg_from_file, mbind, M_bind, file_read. simpl.
  rewrite lookup_insert_eq. unfold lift.
  by rewrite json_loads_dumps_line, subscript_dict, Hdocs.
Qed.

(** X10. A package is not a Document: what [read_object_from_file] reads
    from the file that [write_pkg_to_file] wrote is refused by
    [put_object] with [KeyError] on [_index], before any request. *)
Theorem put_object_of_pkg_file (w : world B) (name path : string)
    (objects : dict) :
  writable w (path_join path (name +:+ "-Pkg.json")) = true →
  ∃ w1 pkg,
    write_pkg_to_file iteritems name objects path w
    = (Ok (path_join path (name +:+ "-Pkg.json")), w1) ∧
    read_object_from_file (path_join path (name +:+ "-Pkg.json")) w1
    = (Ok pkg, w1) ∧
    put_object respond pkg w1 = (Raise (KeyError "_index"), w1).
Proof.
  intros Hw.
  set (fn := path_join path (name +:+ "-Pkg.json")) in *.
  set (pkg := PDict {[ "docs" := PList (iteritems objects).*2 ]}).
  exists (set_file w fn (json_dumps pkg +:+ String newline EmptyString)), pkg.
  split; [|split].
  - unfold write_pkg_to_file. fold fn. fold pkg.
    unfold mbind, M_bind, file_write. by rewrite Hw.
  - apply read_written. simpl. by rewrite lookup_insert_eq.
  - reflexivity.
Qed.


(** ** Further properties of get_objects *)

Lemma get_objects_world (w : world B) (field val : string) :
  (get_objects respond iteritems field val w).2
  = after_requests w
      (respond (Search (index (self w))
                  (query_of (max_hits (self w)) field val)) (backend w)).2
      [Search (index (self w)) (query_of (max_hits (self w)) field val)].
Proof. by rewrite get_objects_run. Qed.

(** X11. Whatever the backend answers, [get_objects] sends one request, a
    search of the manager's index with the query of the field and the
    value, leaves the files alone and leaves the manager connected; an
    error answered by the backend is the outcome. *)
Theorem get_objects_one_request (w : world B) (field val : string) :
  requests (get_objects respond iteritems field val w).2
  = Search (index (self w)) (query_of (max_hits (self w)) field val)
    :: requests w ∧
  files (get_objects respond iteritems field val w).2 = files w ∧
  is_Some (es (self (get_objects respond iteritems field val w).2)) ∧
  index (self (get_objects respond iteritems field val w).2) = index (self w) ∧
  max_hits (self (get_objects respond iteritems field val w).2)
  = max_hits (self w) ∧
  ∀ e, (respond (Search (index (self w))
                   (query_of (max_hits (self w)) field val)) (backend w)).1
       = Raise e →
    (get_objects respond iteritems field val w).1 = Raise e.
Proof.
  rewrite get_objects_run. cbv zeta. simpl.
  destruct (connect_es_backend w) as (_ & _ & _ & _ & Hi & Hm).
  repeat split; try done.
  - apply connect_es_connected.
  - by intros e ->.
Qed.

Lemma collect_hits_app (idx : string) (l1 l2 : list pyval) (acc : dict) :
  collect_hits idx (l1 ++ l2) acc
  = collect_hits idx l1 acc ≫= collect_hits idx l2.
Proof.
  revert acc. induction l1 as [|h l1 IH]; intros acc; [done|].
  simpl.
  destruct (subscript h "_id") as [d|]; [|done]. simpl.
  destruct (as_key d) as [k|]; [|done]. simpl.
  destruct (subscript h "_type") as [t|]; [|done]. simpl.
  destruct (subscript h "_source") as [s|]; [|done]. simpl.
  apply IH.
Qed.

Lemma collect_hits_other (idx k : string) (l : list pyval) (acc objects : dict) :
  Forall (λ h, subscript h "_id" ≠ Ok (PStr k)) l →
  collect_hits idx l acc = Ok objects →
  objects !! k = acc !! k.
Proof.
  intros Hall. revert acc.
  induction Hall as [|h l Hh _ IH]; intros acc Hrun; simpl in Hrun.
  - by injection Hrun as <-.
  - destruct (subscript h "_id") as [d|]; [|done]. simpl in Hrun.
    destruct d as [| | |k'| |]; try done. simpl in Hrun.
    destruct (subscript h "_type") as [t|]; [|done]. simpl in Hrun.
    destruct (subscript h "_source") as [s|]; [|done]. simpl in Hrun.
    rewrite (IH _ Hrun). apply lookup_insert_ne. congruence.
Qed.

Lemma collect_hits_size (idx : string) (l : list pyval) (acc objects : dict) :
  collect_hits idx l acc = Ok objects →
  (size objects ≤ size acc + length l)%nat.
Proof.
  revert acc. induction l as [|h l IH]; intros acc Hrun; simpl in Hrun.
  - injection Hrun as <-. simpl. lia.
  - destruct (subscript h "_id") as [d|]; [|done]. simpl in Hrun.
    destruct (as_key d) as [k|]; [|done]. simpl in Hrun.
    destruct (subscript h "_type") as [t|]; [|done]. simpl in Hrun.
    destruct (subscript h "_source") as [s|]; [|done]. simpl in Hrun.
    apply IH in Hrun. rewrite map_size_insert in Hrun. simpl.
    destruct (acc !! k); unfold id in Hrun; lia.
Qed.

(** X12. When several hits carry the same [_id], the Document kept under
    it is made from the last of them; the result never has more Documents
    than there are hits. *)
Theorem get_objects_last_hit_wins (w : world B) (field val k : string)
    (res t s : pyval) (b : B) (before after : list pyval) (h : pyval) :
  respond (Search (index (self w)) (query_of (max_hits (self w)) field val))
    (backend w) = (Ok res, b) →
  subscript res "hits" ≫= (λ hh, subscript hh "hits")
  = Ok (PList (before ++ h :: after)) →
  Forall well_formed_hit (before ++ h :: after) →
  subscript h "_id" = Ok (PStr k) →
  subscript h "_type" = Ok t →
  subscript h "_source" = Ok s →
  Forall (λ h', subscript h' "_id" ≠ Ok (PStr k)) after →
  ∃ objects,
    (get_objects respond iteritems field val w).1 = Ok objects ∧
    objects !! k = Some (normalized (index (self w)) k t s) ∧
    (size objects ≤ length (before ++ h :: after))%nat.
Proof.
  intros Hresp Hhits Hwf Hk Ht Hs Hafter.
  destruct (collect_hits_spec (index (self w)) _ ∅ Hwf)
    as (objects & Hrun & _).
  exists objects. split; [|split].
  - rewrite get_objects_run. cbv zeta. rewrite Hresp. simpl.
    destruct (subscript res "hits") as [hh|e]; [|done]. simpl in *.
    rewrite Hhits. simpl. exact Hrun.
  - rewrite collect_hits_app in Hrun.
    destruct (collect_hits (index (self w)) before ∅) as [o1|]; [|done].
    simpl in Hrun. rewrite Hk in Hrun. simpl in Hrun.
    rewrite Ht in Hrun. simpl in Hrun. rewrite Hs in Hrun. simpl in Hrun.
    rewrite (collect_hits_other _ k _ _ _ Hafter Hrun).
    apply lookup_insert_eq.
  - apply collect_hits_size in Hrun. rewrite map_size_empty in Hrun. lia.
Qed.

(** X13. One hit that cannot be read ends the whole fetch: after hits
    that are well formed, a hit without [_id], or with a string [_id] and
    without [_type], or with both and without [_source], makes
    [get_objects] fail with the error of that lookup, and no Document is
    returned. *)
Theorem get_objects_bad_hit (w : world B) (field val : string)
    (res : pyval) (b : B) (before after : list pyval) (h : pyval) (e : exn) :
  respond (Search (index (self w)) (query_of (max_hits (self w)) field val))
    (backend w) = (Ok res, b) →
  subscript res "hits" ≫= (λ hh, subscript hh "hits")
  = Ok (PList (before ++ h :: after)) →
  Forall well_formed_hit before →
  subscript h "_id" = Raise e ∨
  (∃ k, subscript h "_id" = Ok (PStr k) ∧ subscript h "_type" = Raise e) ∨
  (∃ k t, subscript h "_id" = Ok (PStr k) ∧ subscript h "_type" = Ok t ∧
          subscript h "_source" = Raise e) →
  (get_objects respond iteritems field val w).1 = Raise e.
Proof.
  intros Hresp Hhits Hwf Hbad.
  destruct (collect_hits_spec (index (self w)) _ ∅ Hwf)
    as (objects & Hrun & _).
  rewrite get_objects_run. cbv zeta. rewrite Hresp. simpl.
  destruct (subscript res "hits") as [hh|e']; [|done]. simpl in *.
  rewrite Hhits. simpl. rewrite collect_hits_app, Hrun. simpl.
  destruct Hbad as [Hid|[(k & Hid & Ht)|(k & t & Hid & Ht & Hs)]].
  - by rewrite Hid.
  - rewrite Hid. simpl. by rewrite Ht.
  - rewrite Hid. simpl. rewrite Ht. simpl. by rewrite Hs.
Qed.


(** ** Further properties of get_dashboard_full *)

(** X14. [get_dashboard_full] only searches: when its three fetches
    succeed it has sent three requests, for the dashboards, the
    visualizations and the searches in this order, all to the manager's
    index, whatever the dashboard asked for and whatever becomes of it;
    the files are as before. *)
Theorem get_dashboard_full_requests (w w1 w2 w3 : world B) (ds vs ss : dict)
    (dboard : string) :
  get_objects respond iteritems "type" "dashboard" w = (Ok ds, w1) →
  get_objects respond iteritems "type" "visualization" w1 = (Ok vs, w2) →
  get_objects respond iteritems "type" "search" w2 = (Ok ss, w3) →
  (get_dashboard_full respond iteritems dboard w).2 = w3 ∧
  requests w3
  = [ Search (index (self w)) (query_of (max_hits (self w)) "type" "search");
      Search (index (self w))
        (query_of (max_hits (self w)) "type" "visualization");
      Search (index (self w))
        (query_of (max_hits (self w)) "type" "dashboard") ]
    ++ requests w ∧
  files w3 = files w.
Proof.
  intros H1 H2 H3.
  split; [by rewrite (get_dashboard_full_run _ _ _ _ _ _ _ _ H1 H2 H3)|].
  apply (f_equal snd) in H1, H2, H3. simpl in *.
  rewrite get_objects_world in H1, H2, H3. subst w1 w2 w3.
  destruct (connect_es_backend w) as (_ & _ & _ & _ & Hi & Hm).
  unfold after_requests. simpl.
  assert (∀ v : world B,
            index (self (connect_es v).2) = index (self v) ∧
            max_hits (self (connect_es v).2) = max_hits (self v)) as Hc.
  { intros v. by destruct (connect_es_backend v) as (_ & _ & _ & _ & ? & ?). }
  repeat match goal with
         | |- context [connect_es ?v] =>
             lazymatch goal with
             | _ : index (self (connect_es v).2) = _ |- _ => fail
             | _ => destruct (Hc v) as [? ?]
             end
         end.
  simpl in *. split; [|done].
  repeat match goal with H : _ = _ |- _ => rewrite H end. reflexivity.
Qed.


Lemma match_panel_other_id (items : list (string * pyval)) (panel v : pyval)
    (objects : dict) :
  subscript panel "id" = Ok v →
  (∀ s, v ≠ PStr s) →
  match_panel items panel objects = Ok objects.
Proof.
  intros Hid Hv. revert objects.
  induction items as [|[k x] items IH]; intros objects; [done|].
  simpl. rewrite Hid. simpl.
  destruct v; try apply IH. by destruct (Hv s).
Qed.

Lemma panel_step_any (vs ss : dict) (panel v : pyval) (objects : dict) :
  subscript panel "id" = Ok v →
  match_panel (iteritems vs) panel objects
    ≫= match_panel (iteritems ss) panel
  = Ok (resolve_step vs ss v objects).
Proof.
  intros Hid. destruct v as [| | |s| |];
    try (rewrite (match_panel_other_id _ _ _ _ Hid) by done; simpl;
         by rewrite (match_panel_other_id _ _ _ _ Hid) by done).
  by apply panel_step.
Qed.

Lemma resolve_panels_app (vs ss : dict) (good rest : list pyval)
    (pids : list pyval) (objects : dict) :
  Forall2 (λ p v, subscript p "id" = Ok v) good pids →
  resolve_panels iteritems vs ss (good ++ rest) objects
  = resolve_panels iteritems vs ss rest
      (foldl (λ o v, resolve_step vs ss v o) objects pids).
Proof.
  intros Hall. revert objects.
  induction Hall as [|p v good pids Hp _ IH]; intros objects; [done|].
  simpl. rewrite (panel_step_any _ _ _ _ _ Hp). apply IH.
Qed.

Lemma resolve_step_lookup (vs ss : dict) (v : pyval) (objects : dict)
    (k : string) :
  resolve_step vs ss v objects !! k
  = match v with
    | PStr s =>
        if decide (s = k) then
          match ss !! k with
          | Some x => Some x
          | None => match vs !! k with
                    | Some x => Some x
                    | None => objects !! k
                    end
          end
        else objects !! k
    | _ => objects !! k
    end.
Proof.
  destruct v as [| | |s| |]; try done. simpl. unfold overlay.
  destruct (decide (s = k)) as [->|Hne].
  - destruct (ss !! k), (vs !! k); by rewrite ?lookup_insert_eq.
  - destruct (ss !! s), (vs !! s); by rewrite ?lookup_insert_ne.
Qed.

Lemma resolved_lookup_cases (vs ss : dict) (pids : list pyval) (objects : dict)
    (k : string) :
  foldl (λ o v, resolve_step vs ss v o) objects pids !! k = objects !! k ∨
  foldl (λ o v, resolve_step vs ss v o) objects pids !! k
  = match ss !! k with
    | Some x => Some x
    | None => match vs !! k with
              | Some x => Some x
              | None => objects !! k
              end
    end.
Proof.
  revert objects. induction pids as [|v pids IH]; intros objects; [by left|].
  simpl. destruct (IH (resolve_step vs ss v objects)) as [-> | ->];
    rewrite resolve_step_lookup;
    destruct v as [| | |s| |]; auto;
    destruct (decide (s = k)); auto;
    destruct (ss !! k), (vs !! k); auto.
Qed.

Lemma resolved_lookup_absent (vs ss : dict) (pids : list pyval) (objects : dict)
    (k : string) :
  PStr k ∉ pids →
  foldl (λ o v, resolve_step vs ss v o) objects pids !! k = objects !! k.
Proof.
  revert objects. induction pids as [|v pids IH]; intros objects Hk; [done|].
  apply not_elem_of_cons in Hk as [Hne Hk].
  simpl. rewrite (IH _ Hk), resolve_step_lookup.
  destruct v as [| | |s| |]; try done.
  destruct (decide (s = k)) as [->|]; done.
Qed.

Lemma resolved_lookup_present (vs ss : dict) (pids : list pyval)
    (objects : dict) (k : string) :
  PStr k ∈ pids →
  foldl (λ o v, resolve_step vs ss v o) objects pids !! k
  = match ss !! k with
    | Some x => Some x
    | None => match vs !! k with
              | Some x => Some x
              | None => objects !! k
              end
    end.
Proof.
  revert objects. induction pids as [|v pids IH]; intros objects Hk.
  - by apply elem_of_nil in Hk.
  - simpl. apply elem_of_cons in Hk as [<-|Hk].
    + destruct (resolved_lookup_cases vs ss pids
                  (resolve_step vs ss (PStr k) objects) k) as [-> | ->];
        rewrite resolve_step_lookup; rewrite decide_True by done;
        destruct (ss !! k), (vs !! k); done.
    + rewrite (IH _ Hk), resolve_step_lookup.
      destruct v as [| | |s| |]; try done.
      destruct (decide (s = k)); [|done].
      destruct (ss !! k), (vs !! k); done.
Qed.

(** X15. What a found dashboard brings back when every panel has an
    [id].  Under an id that no panel names the result has what the
    dashboard alone gives: the dashboard under its own id, nothing
    elsewhere.  Under an id that a panel names it has the search of that
    id if one was fetched, else the visualization of that id if one was
    fetched, else again what the dashboard alone gives: a panel that names
    nothing fetched is passed over, and an id that is not a string names
    nothing. *)
Theorem get_dashboard_full_lookup (w w1 w2 w3 : world B) (ds vs ss : dict)
    (x pj : string) (X src : pyval) (panels pids : list pyval) :
  get_objects respond iteritems "type" "dashboard" w = (Ok ds, w1) →
  get_objects respond iteritems "type" "visualization" w1 = (Ok vs, w2) →
  get_objects respond iteritems "type" "search" w2 = (Ok ss, w3) →
  ds !! x = Some X →
  subscript X "_source" = Ok src →
  subscript src "panelsJSON" = Ok (PStr pj) →
  json_loads pj = Ok (PList panels) →
  Forall2 (λ p v, subscript p "id" = Ok v) panels pids →
  ∃ objects : dict,
    get_dashboard_full respond iteritems x w = (Ok (Some objects), w3) ∧
    (∀ k, PStr k ∉ pids → objects !! k = ({[ x := X ]} : dict) !! k) ∧
    (∀ k, PStr k ∈ pids →
       objects !! k
       = match ss !! k with
         | Some v => Some v
         | None => match vs !! k with
                   | Some v => Some v
                   | None => ({[ x := X ]} : dict) !! k
                   end
         end).
Proof.
  intros H1 H2 H3 HX Hsrc Hpj Hload Hall.
  exists (foldl (λ o v, resolve_step vs ss v o) {[ x := X ]} pids).
  split; [|split].
  - rewrite (get_dashboard_full_run _ _ _ _ _ _ _ _ H1 H2 H3).
    rewrite (find_dashboard_present _ _ _ _ X)
      by (apply iteritems_NoDup || by apply iteritems_elem).
    rewrite (export_dashboard_panels _ _ _ _ _ _ _ HX Hsrc Hpj).
    rewrite Hload. simpl.
    rewrite <- (app_nil_r panels).
    by rewrite (resolve_panels_app _ _ _ _ _ _ Hall).
  - intros k. apply resolved_lookup_absent.
  - intros k. apply resolved_lookup_present.
Qed.

(** X16. A panel that is not an object, after panels that have an [id],
    ends the call with [TypeError] as soon as a visualization or a search
    has been fetched: the [except] clause catches [KeyError] only. *)
Theorem get_dashboard_full_panel_not_object (w w1 w2 w3 : world B)
    (ds vs ss : dict) (x pj : string) (X src : pyval)
    (good rest pids : list pyval) (p : pyval) :
  get_objects respond iteritems "type" "dashboard" w = (Ok ds, w1) →
  get_objects respond iteritems "type" "visualization" w1 = (Ok vs, w2) →
  get_objects respond iteritems "type" "search" w2 = (Ok ss, w3) →
  ds !! x = Some X →
  subscript X "_source" = Ok src →
  subscript src "panelsJSON" = Ok (PStr pj) →
  json_loads pj = Ok (PList (good ++ p :: rest)) →
  Forall2 (λ p v, subscript p "id" = Ok v) good pids →
  (∀ m : dict, p ≠ PDict m) →
  vs ≠ ∅ ∨ ss ≠ ∅ →
  get_dashboard_full respond iteritems x w = (Raise TypeError, w3).
Proof.
  intros H1 H2 H3 HX Hsrc Hpj Hload Hall Hp Hdeps.
  assert (subscript p "id" = Raise TypeError) as Hid.
  { destruct p; try done. by destruct (Hp m). }
  rewrite (get_dashboard_full_run _ _ _ _ _ _ _ _ H1 H2 H3).
  rewrite (find_dashboard_present _ _ _ _ X)
    by (apply iteritems_NoDup || by apply iteritems_elem).
  rewrite (export_dashboard_panels _ _ _ _ _ _ _ HX Hsrc Hpj).
  rewrite Hload. simpl.
  rewrite (resolve_panels_app _ _ _ _ _ _ Hall). simpl.
  destruct (iteritems vs) as [|kv items] eqn:Hvs.
  - simpl. rewrite (match_panel_no_id _ _ TypeError); [done| |done].
    intros Hss. apply iteritems_nil in Hvs, Hss. by destruct Hdeps.
  - by rewrite (match_panel_no_id (kv :: items) _ TypeError).
Qed.

(** ** Further properties of json_dumps *)

(** X17. [json_dumps] loses nothing: [json.loads] gives the value back
    from its text, so two values with the same text are the same value. *)
Theorem json_dumps_round_trip (v : pyval) :
  json_loads (json_dumps v) = Ok v ∧
  ∀ v', json_dumps v = json_dumps v' → v = v'.
Proof.
  assert (∀ u, json_loads (json_dumps u) = Ok u) as Hrt.
  { intros u. unfold json_dumps. rewrite <- (app_nil_r (iterencode 0 u)).
    by apply json_loads_dumps_text. }
  split; [apply Hrt|].
  intros v' Heq. pose proof (Hrt v) as Hv. rewrite Heq, Hrt in Hv.
  by injection Hv.
Qed.


Lemma all_plain_app (a b : text) : all_plain a → all_plain b → all_plain (a ++ b).
Proof. unfold all_plain. intros Ha Hb. by rewrite forallb_app, Ha, Hb. Qed.

Lemma all_plain_cons (c : ascii) (t : text) :
  plain c = true → all_plain t → all_plain (c :: t).
Proof. unfold all_plain. simpl. by intros -> ->. Qed.

Lemma escape_char_plain (c : ascii) : all_plain (escape_char c).
Proof. destruct c as [[] [] [] [] [] [] [] []]; reflexivity. Qed.

Lemma encode_string_plain (s : string) : all_plain (encode_string s).
Proof.
  unfold encode_string. apply all_plain_cons; [done|].
  apply all_plain_app; [|done].
  induction (chars s) as [|c l IH]; [done|].
  change (mjoin (escape_char <$> c :: l))
    with (escape_char c ++ mjoin (escape_char <$> l)).
  apply all_plain_app; [apply escape_char_plain | apply IH].
Qed.

Lemma uint_chars_plain (u : uint) : all_plain (uint_chars u).
Proof. induction u; try done; by apply all_plain_cons. Qed.

Lemma str_int_plain (z : Z) : all_plain (str_int z).
Proof.
  unfold str_int. destruct (z <? 0); [apply all_plain_cons; [done|]|];
    apply uint_chars_plain.
Qed.

Lemma newline_indent_plain (level : nat) : all_plain (newline_indent level).
Proof.
  unfold newline_indent. apply all_plain_cons; [done|].
  induction (4 * level)%nat as [|n IH]; [done|]. by apply all_plain_cons.
Qed.

Lemma join_with_plain (sep : text) (parts : list text) :
  all_plain sep → Forall all_plain parts → all_plain (join_with sep parts).
Proof.
  intros Hsep Hall. induction Hall as [|p ps Hp Hps IH]; [done|].
  destruct ps as [|q ps]; [done|].
  change (join_with sep (p :: q :: ps))
    with (p ++ sep ++ join_with sep (q :: ps)).
  by repeat apply all_plain_app.
Qed.

Lemma iterencode_plain (v : pyval) (level : nat) :
  all_plain (iterencode level v).
Proof.
  revert level.
  induction v as [| b | z | s | l IH | m IH] using pyval_ind_nested;
    intros level.
  - done.
  - by destruct b.
  - apply str_int_plain.
  - apply encode_string_plain.
  - destruct l as [|x xs]; [done|]. rewrite iterencode_list.
    apply all_plain_cons; [done|].
    repeat apply all_plain_app;
      try apply newline_indent_plain; try done.
    apply join_with_plain.
    + apply all_plain_cons; [done | apply newline_indent_plain].
    + apply Forall_fmap. eapply Forall_impl; [exact IH|].
      intros y Hy. apply Hy.
  - rewrite iterencode_dict. cbv zeta. rewrite map_fold_items.
    destruct (sorted_items (iterencode (S level)) m) as (kvs & -> & Hp).
    destruct kvs as [|kv kvs]; [done|].
    change (map ?f (kv :: kvs)) with (f kv :: map f kvs) at 1. cbv iota.
    apply all_plain_cons; [done|].
    repeat apply all_plain_app;
      try apply newline_indent_plain; try done.
    apply join_with_plain.
    + apply all_plain_cons; [done | apply newline_indent_plain].
    + rewrite map_map. apply Forall_fmap, Forall_forall.
      intros [k' v'] Hin. rewrite Hp in Hin.
      apply elem_of_map_to_list in Hin. cbv beta. simpl fst. simpl snd.
      apply all_plain_app; [apply encode_string_plain|].
      apply all_plain_app; [done | apply (IH k' v' Hin)].
Qed.

(** X18. The text of [json_dumps] is plain ASCII whatever the value
    holds: each of its characters is a newline or a printable character,
    from the space to the tilde; everything else in a string is written
    as an escape. *)
Theorem json_dumps_ascii (v : pyval) (c : ascii) :
  c ∈ chars (json_dumps v) →
  c = newline ∨ (32 ≤ code c ≤ 126)%N.
Proof.
  intros Hin. unfold json_dumps in Hin. rewrite chars_str in Hin.
  pose proof (iterencode_plain v 0) as Hall. unfold all_plain in Hall.
  rewrite forallb_forall in Hall.
  apply list_elem_of_In, Hall in Hin. unfold plain in Hin.
  apply orb_true_iff in Hin as [Hn|Hr].
  - left. by apply Ascii.eqb_eq.
  - right. apply andb_true_iff in Hr as [H1 H2].
    apply N.leb_le in H1, H2. done.
Qed.

End ManagerFacts.

(** * The theorems on concrete inputs *)

Lemma map_to_list_visits (m : dict) : map_to_list m ≡ₚ map_to_list m.
Proof. reflexivity. Defined.

Lemma get_dashboard_full_absent_witness :
  (get_dashboard_full store_respond map_to_list "Y" (world_of store_closure)).1
  = Ok None.
Proof.
  refine (f_equal fst
            (get_dashboard_full_absent store_respond map_to_list
               map_to_list_visits (world_of store_closure) _ _ _ _ _ _ "Y"
               _ _ _ _)).
  - reflexivity.
  - reflexivity.
  - reflexivity.
  - reflexivity.
Defined.

(** C2, on the code.  The dashboard X has a single panel, without [id];
    no visualization and no search is fetched, so [panel['id']] is never
    evaluated and the dashboard comes back alone instead of the empty
    dictionary. *)
Theorem get_dashboard_full_missing_id_alone :
  json_loads (json_dumps (PList [panel_without_id]))
  = Ok (PList [panel_without_id]) ∧
  subscript panel_without_id "id" = Raise (KeyError "id") ∧
  (get_dashboard_full store_respond map_to_list "X" (world_of store_alone)).1
  = Ok (Some {[ "X" := normalized ".kibana" "X" (PStr "dashboard")
                         (dashboard_source [panel_without_id]) ]}).
Proof.
  split; [apply json_loads_dumps | split; [reflexivity|]].
  vm_compute. reflexivity.
Qed.

Lemma get_dashboard_full_missing_id_witness :
  (get_dashboard_full store_respond map_to_list "X"
     (world_of store_with_search)).1 = Ok (Some ∅).
Proof.
  refine (f_equal fst
            (get_dashboard_full_missing_id store_respond map_to_list
               map_to_list_visits (world_of store_with_search)
               _ _ _ _ _ _ "X" _ _ _ [panel "S1"; panel_without_id]
               _ _ _ _ _ _ _ _ _ _)).
  - reflexivity.
  - reflexivity.
  - reflexivity.
  - reflexivity.
  - reflexivity.
  - reflexivity.
  - apply json_loads_dumps.
  - right. intros H. apply (f_equal (lookup "S1")) in H. discriminate H.
  - repeat constructor; eexists; reflexivity.
  - apply Exists_cons_tl, Exists_cons_hd. reflexivity.
Defined.

(** C3 fails when ids collide: the dashboard Traffic shows the
    visualization Traffic and the search S1, all three are fetched, and the
    result holds two documents, the visualization in the place of the
    dashboard. *)
Lemma get_dashboard_full_same_id :
  ∃ objects : dict,
    (get_dashboard_full store_respond map_to_list "Traffic"
       (world_of store_same_id)).1 = Ok (Some objects) ∧
    size objects = 2%nat ∧
    objects !! "Traffic"
    = Some (normalized ".kibana" "Traffic" (PStr "visualization")
              (titled "Traffic")) ∧
    objects !! "S1"
    = Some (normalized ".kibana" "S1" (PStr "search") (titled "Slow queries")).
Proof.
  eexists. split; [vm_compute; reflexivity|].
  split; [|split]; vm_compute; reflexivity.
Qed.

Lemma get_dashboard_full_closure_witness :
  (get_dashboard_full store_respond map_to_list "X" (world_of store_closure)).1
  = Ok (Some {[ "S1" := normalized ".kibana" "S1" (PStr "search")
                          (titled "Slow queries");
                "V1" := normalized ".kibana" "V1" (PStr "visualization")
                          (titled "Requests");
                "X" := normalized ".kibana" "X" (PStr "dashboard")
                         (dashboard_source [panel "V1"; panel "S1"]) ]}).
Proof.
  refine (f_equal fst
            (proj1
               (get_dashboard_full_closure store_respond map_to_list
                  map_to_list_visits (world_of store_closure)
                  _ _ _ _ _ _ "X" "V1" "S1" _ _ _ _ _
                  [panel "V1"; panel "S1"]
                  _ _ _ _ _ _ _ _ _ _ _ _ _ _ _))).
  - reflexivity.
  - reflexivity.
  - reflexivity.
  - reflexivity.
  - reflexivity.
  - reflexivity.
  - apply json_loads_dumps.
  - constructor; [by left|]. constructor; [by right|]. constructor.
  - reflexivity.
  - reflexivity.
  - reflexivity.
  - reflexivity.
  - discriminate.
  - discriminate.
  - reflexivity.
Defined.

Lemma put_object_rejects_witness :
  put_object store_respond
    (document (PStr ".kibana") (PStr "") (PStr "dashboard") (titled "Overview"))
    (world_of [])
  = (Raise (Exception "Invalid Object, no _id"), world_of []) ∧
  put_object store_respond
    (PDict {[ "_index" := PStr ".kibana"; "_id" := PStr "X";
              "_source" := titled "Overview" ]})
    (world_of [])
  = (Raise (KeyError "_type"), world_of []).
Proof.
  split.
  - refine (proj2
              (put_object_rejects store_respond (world_of []) _
                 [("_index", "index")]
                 [("_type", "_type"); ("_source", "_source")] "_id" "_id"
                 _ _) (PStr "") _ _).
    + reflexivity.
    + constructor; [|constructor]. by eexists.
    + reflexivity.
    + reflexivity.
  - refine (proj1
              (put_object_rejects store_respond (world_of []) _
                 [("_index", "index"); ("_id", "_id")]
                 [("_source", "_source")] "_type" "_type" _ _) _).
    + reflexivity.
    + constructor; [by eexists|]. constructor; [by eexists|]. constructor.
    + reflexivity.
Defined.

(** C4 fails on an empty [_source] object, which is neither [None] nor the
    empty string: the Document passes the checks and is sent to the
    backend.  An absent field raises [KeyError], not the exception of the
    checks. *)
Lemma put_object_accepts_empty_source :
  missing (PDict ∅) = false ∧
  (put_object store_respond
     (document (PStr ".kibana") (PStr "X") (PStr "dashboard") (PDict ∅))
     (world_of [])).1 = Ok (PDict {[ "_id" := PStr "X" ]}) ∧
  requests
    (put_object store_respond
       (document (PStr ".kibana") (PStr "X") (PStr "dashboard") (PDict ∅))
       (world_of [])).2
  = [ Index (PStr ".kibana") (PStr "X") (PStr "dashboard") (PDict ∅);
      IndicesCreate (PStr ".kibana") ] ∧
  put_object store_respond
    (PDict {[ "_id" := PStr "X"; "_type" := PStr "dashboard";
              "_source" := titled "Overview" ]})
    (world_of [])
  = (Raise (KeyError "_index"), world_of []).
Proof. repeat split; vm_compute; reflexivity. Qed.





Lemma hit_well_formed (type id : string) (source : pyval) :
  well_formed_hit (hit type id source).
Proof. by exists id, (PStr type), source. Qed.

Lemma get_objects_normalizes_witness :
  ∃ objects : dict,
    (get_objects store_respond map_to_list "type" "visualization"
       (world_of store_closure)).1 = Ok objects ∧
    (∀ k v, objects !! k = Some v →
       subscript v "_id" = Ok (PStr k) ∧
       subscript v "_index" = Ok (PStr ".kibana") ∧
       subscript v "_type" = Ok (PStr "visualization")) ∧
    is_Some (objects !! "V1") ∧ is_Some (objects !! "V2").
Proof.
  destruct (get_objects_normalizes store_respond map_to_list
              (world_of store_closure) "type" "visualization"
              (search_result [hit "visualization" "V1" (titled "Requests");
                              hit "visualization" "V2" (titled "Errors")])
              store_closure
              [hit "visualization" "V1" (titled "Requests");
               hit "visualization" "V2" (titled "Errors")])
    as (objects & w' & Hrun & Hfrom & Hall & Htype).
  - reflexivity.
  - reflexivity.
  - repeat constructor; apply hit_well_formed.
  - exists objects. split; [by rewrite Hrun|]. split; [|split].
    + intros k v Hv. split; [|split].
      * by destruct (Hfrom k v Hv) as (h & t & s & _ & _ & _ & _ & ->).
      * by destruct (Hfrom k v Hv) as (h & t & s & _ & _ & _ & _ & ->).
      * apply (Htype "visualization") with (k := k); [|done].
        by repeat constructor.
    + destruct (Hall (hit "visualization" "V1" (titled "Requests")))
        as (k & Hk & Hsome); [apply list_elem_of_here|].
      by injection Hk as <-.
    + destruct (Hall (hit "visualization" "V2" (titled "Errors")))
        as (k & Hk & Hsome);
        [apply list_elem_of_further, list_elem_of_here|].
      by injection Hk as <-.
Defined.

(** C8 fails for a search result that holds a hit of another type: the
    backend answers the dashboard query with a visualization, and the
    value returned for it has type visualization. *)
Lemma get_objects_copies_type :
  (get_objects (fixed_respond [hit "visualization" "V1" (titled "Requests")])
     map_to_list "type" "dashboard" (world_of ())).1
  = Ok {[ "V1" := normalized ".kibana" "V1" (PStr "visualization")
                    (titled "Requests") ]} ∧
  subscript (normalized ".kibana" "V1" (PStr "visualization")
               (titled "Requests")) "_type"
  = Ok (PStr "visualization").
Proof. split; vm_compute; reflexivity. Qed.


(** * The further properties on concrete inputs *)

Lemma put_object_sends_witness :
  put_object store_respond
    (document (PStr ".kibana") (PStr "X") (PStr "dashboard") (titled "Overview"))
    (world_of [])
  = (Ok (PDict {[ "_id" := PStr "X" ]}),
     after_requests (world_of [])
       [document (PStr ".kibana") (PStr "X") (PStr "dashboard")
          (titled "Overview")]
       [Index (PStr ".kibana") (PStr "X") (PStr "dashboard") (titled "Overview");
        IndicesCreate (PStr ".kibana")]).
Proof.
  refine (proj1
            (put_object_sends store_respond (world_of []) _ (PStr ".kibana")
               (PStr "X") (PStr "dashboard") (titled "Overview") _ _ _ _ _) _).
  - reflexivity.
  - reflexivity.
  - reflexivity.
  - reflexivity.
  - reflexivity.
  - reflexivity.
Defined.

Lemma put_pkg_stops_at_failure_witness :
  ∃ w2,
    put_pkg store_respond map_to_list
      (PList [document (PStr ".kibana") (PStr "V1") (PStr "visualization")
                (titled "Requests");
              document (PStr ".kibana") (PStr "") (PStr "search")
                (titled "Slow queries");
              document (PStr ".kibana") (PStr "V2") (PStr "visualization")
                (titled "Errors")])
      (world_of [])
    = (Raise (Exception "Invalid Object, no _id"), w2) ∧
    requests w2
    = [Index (PStr ".kibana") (PStr "V1") (PStr "visualization")
         (titled "Requests");
       IndicesCreate (PStr ".kibana")].
Proof.
  eexists. split.
  - refine (put_pkg_stops_at_failure store_respond map_to_list (world_of [])
              _ _
              [document (PStr ".kibana") (PStr "V1") (PStr "visualization")
                 (titled "Requests")]
              [document (PStr ".kibana") (PStr "V2") (PStr "visualization")
                 (titled "Errors")]
              _ _ _ _).
    + reflexivity.
    + reflexivity.
  - reflexivity.
Defined.

Lemma put_pkg_of_dict_witness :
  put_pkg store_respond map_to_list (PDict {[ "docs" := PList [] ]})
    (world_of [])
  = (Raise TypeError, world_of []).
Proof.
  refine (put_pkg_of_dict store_respond map_to_list map_to_list_visits
            (world_of []) _ _).
  intros H. apply (f_equal (lookup "docs")) in H. discriminate H.
Defined.


Lemma del_object_sends_witness :
  (del_object store_respond
     (PDict {[ "_index" := PStr ".kibana"; "_id" := PStr "V2";
               "_type" := PStr "visualization" ]})
     (world_of store_closure)).1 = Ok PNone ∧
  requests
    (del_object store_respond
       (PDict {[ "_index" := PStr ".kibana"; "_id" := PStr "V2";
                 "_type" := PStr "visualization" ]})
       (world_of store_closure)).2
  = [Delete (PStr ".kibana") (PStr "V2") (PStr "visualization")].
Proof.
  split.
  - refine (f_equal fst
              (del_object_sends store_respond (world_of store_closure) _
                 (PStr ".kibana") (PStr "V2") (PStr "visualization") _ _ _ _));
      reflexivity.
  - refine (f_equal (λ r, requests r.2)
              (del_object_sends store_respond (world_of store_closure) _
                 (PStr ".kibana") (PStr "V2") (PStr "visualization") _ _ _ _));
      reflexivity.
Defined.



Lemma read_pkg_of_object_file_witness :
  ∃ w1,
    write_object_to_file (B := ()) json_dumps
      (document (PStr ".kibana") (PStr "X") (PStr "dashboard")
         (titled "Overview")) "." (world_of ())
    = (Ok "./dashboard-X.json", w1) ∧
    read_pkg_from_file "./dashboard-X.json" w1 = (Raise (KeyError "docs"), w1).
Proof.
  refine (read_pkg_of_object_file (B := ()) json_dumps (world_of ()) _ "." _ _ _).
  - by exists "dashboard", "X".
  - reflexivity.
  - reflexivity.
Defined.

Lemma put_object_of_pkg_file_witness :
  ∃ w1 pkg,
    write_pkg_to_file map_to_list "backup"
      {[ "V1" := document (PStr ".kibana") (PStr "V1") (PStr "visualization")
                   (titled "Requests") ]} "out" (world_of [])
    = (Ok "out/backup-Pkg.json", w1) ∧
    read_object_from_file "out/backup-Pkg.json" w1 = (Ok pkg, w1) ∧
    put_object store_respond pkg w1 = (Raise (KeyError "_index"), w1).
Proof.
  refine (put_object_of_pkg_file store_respond map_to_list (world_of [])
            "backup" "out" _ _).
  reflexivity.
Defined.

Lemma get_objects_last_hit_wins_witness :
  ∃ objects : dict,
    (get_objects
       (fixed_respond [hit "dashboard" "X" (titled "Old");
                       hit "dashboard" "X" (titled "New");
                       hit "dashboard" "Y" (titled "Other")])
       map_to_list "type" "dashboard" (world_of ())).1 = Ok objects ∧
    objects !! "X"
    = Some (normalized ".kibana" "X" (PStr "dashboard") (titled "New")) ∧
    (size objects ≤ 3)%nat.
Proof.
  refine (get_objects_last_hit_wins
            (fixed_respond [hit "dashboard" "X" (titled "Old");
                            hit "dashboard" "X" (titled "New");
                            hit "dashboard" "Y" (titled "Other")])
            map_to_list (world_of ()) "type" "dashboard" "X" _
            (PStr "dashboard") (titled "New") _
            [hit "dashboard" "X" (titled "Old")]
            [hit "dashboard" "Y" (titled "Other")]
            (hit "dashboard" "X" (titled "New")) _ _ _ _ _ _ _).
  - reflexivity.
  - reflexivity.
  - repeat constructor; apply hit_well_formed.
  - reflexivity.
  - reflexivity.
  - reflexivity.
  - constructor; [|constructor]. intros H. vm_compute in H. discriminate H.
Defined.

Lemma get_objects_bad_hit_witness :
  (get_objects
     (fixed_respond [hit "dashboard" "X" (titled "Overview");
                     PDict {[ "_id" := PStr "Y"; "_type" := PStr "dashboard" ]};
                     hit "dashboard" "Z" (titled "Other")])
     map_to_list "type" "dashboard" (world_of ())).1
  = Raise (KeyError "_source").
Proof.
  refine (get_objects_bad_hit
            (fixed_respond [hit "dashboard" "X" (titled "Overview");
                            PDict {[ "_id" := PStr "Y";
                                     "_type" := PStr "dashboard" ]};
                            hit "dashboard" "Z" (titled "Other")])
            map_to_list (world_of ()) "type" "dashboard" _ _
            [hit "dashboard" "X" (titled "Overview")]
            [hit "dashboard" "Z" (titled "Other")]
            (PDict {[ "_id" := PStr "Y"; "_type" := PStr "dashboard" ]})
            (KeyError "_source") _ _ _ _).
  - reflexivity.
  - reflexivity.
  - repeat constructor; apply hit_well_formed.
  - right. right. exists "Y", (PStr "dashboard").
    split; [reflexivity|]. split; reflexivity.
Defined.

Lemma get_dashboard_full_requests_witness :
  requests
    (get_dashboard_full store_respond map_to_list "Y" (world_of store_closure)).2
  = [ Search ".kibana" (query_of 9999 "type" "search");
      Search ".kibana" (query_of 9999 "type" "visualization");
      Search ".kibana" (query_of 9999 "type" "dashboard") ].
Proof.
  edestruct (get_dashboard_full_requests store_respond map_to_list
               (world_of store_closure))
    with (dboard := "Y") as (Hw & Hreq & _).
  - reflexivity.
  - reflexivity.
  - reflexivity.
  - rewrite Hw. exact Hreq.
Defined.

Lemma get_dashboard_full_lookup_witness :
  ∃ objects : dict,
    (get_dashboard_full store_respond map_to_list "X"
       (world_of store_closure)).1 = Ok (Some objects) ∧
    objects !! "S1"
    = Some (normalized ".kibana" "S1" (PStr "search") (titled "Slow queries")) ∧
    objects !! "V2" = None.
Proof.
  edestruct (get_dashboard_full_lookup store_respond map_to_list
               map_to_list_visits (world_of store_closure))
    with (x := "X") (panels := [panel "V1"; panel "S1"])
         (pids := [PStr "V1"; PStr "S1"])
    as (objects & Hrun & Habsent & Hpresent).
  - reflexivity.
  - reflexivity.
  - reflexivity.
  - reflexivity.
  - reflexivity.
  - reflexivity.
  - apply json_loads_dumps.
  - repeat constructor.
  - exists objects. split; [by rewrite Hrun|]. split.
    + rewrite Hpresent; [reflexivity|].
      apply list_elem_of_further, list_elem_of_here.
    + rewrite Habsent; [reflexivity|].
      intros H. apply elem_of_cons in H as [H|H]; [discriminate H|].
      apply elem_of_cons in H as [H|H]; [discriminate H|].
      by apply elem_of_nil in H.
Defined.

Lemma get_dashboard_full_panel_not_object_witness :
  (get_dashboard_full store_respond map_to_list "X"
     (world_of [ hit "dashboard" "X" (dashboard_source [panel "V1"; PInt 7]);
                 hit "visualization" "V1" (titled "Requests") ])).1
  = Raise TypeError.
Proof.
  refine (f_equal fst
            (get_dashboard_full_panel_not_object store_respond map_to_list
               map_to_list_visits
               (world_of [ hit "dashboard" "X"
                             (dashboard_source [panel "V1"; PInt 7]);
                           hit "visualization" "V1" (titled "Requests") ])
               _ _ _ _ _ _ "X" _ _ _ [panel "V1"] [] [PStr "V1"] (PInt 7)
               _ _ _ _ _ _ _ _ _ _)).
  - reflexivity.
  - reflexivity.
  - reflexivity.
  - reflexivity.
  - reflexivity.
  - reflexivity.
  - apply json_loads_dumps.
  - repeat constructor.
  - discriminate.
  - left. intros H. apply (f_equal (lookup "V1")) in H. discriminate H.
Defined.

Lemma json_dumps_ascii_witness :
  "u"%char = newline ∨
  (32 ≤ code "u" ≤ 126)%N.
Proof.
  refine (json_dumps_ascii (PStr (String "233"%char EmptyString)) "u"%char _).
  apply (bool_decide_unpack _). vm_compute. exact I.
Defined.
